(** * proxy-checker: the probing engine, the statistics, the line parser and
      the CSV export of [proxy_checker.py] and [proxy_checker_cli.py]

    The development embeds the Python code shallowly.  A Python [str] is a
    sequence of Unicode code points, a Python number is an [int] or a
    [float] (IEEE 754 binary64, Rocq's primitive floats), the network and the
    clock are explicit inputs of a probe, and a batch run is a labelled
    transition system whose runs are the possible completion orders. *)

From Stdlib Require Import ZArith NArith List String Ascii Bool Lia Permutation.
From Stdlib Require Import Sorted.
From Stdlib Require Import Floats.
Import ListNotations.

Set Implicit Arguments.
Set Warnings "-inexact-float".

(* ================================================================== *)
(** * Python values *)

(** ** Strings: sequences of code points *)

Definition pystr := list N.

(** Decoding of the UTF-8 bytes of a literal of this file into code points,
    so that the literals of the source can be written as they are. *)
Fixpoint utf8 (bs : list N) : pystr :=
  match bs with
  | [] => []
  | b0 :: r0 =>
    if (b0 <? 128)%N then b0 :: utf8 r0
    else match r0 with
    | [] => []
    | b1 :: r1 =>
      if (b0 <? 224)%N then ((b0 - 192) * 64 + (b1 - 128))%N :: utf8 r1
      else match r1 with
      | [] => []
      | b2 :: r2 =>
        if (b0 <? 240)%N
        then ((b0 - 224) * 4096 + (b1 - 128) * 64 + (b2 - 128))%N :: utf8 r2
        else match r2 with
        | [] => []
        | b3 :: r3 =>
          ((b0 - 240) * 262144 + (b1 - 128) * 4096
           + (b2 - 128) * 64 + (b3 - 128))%N :: utf8 r3
        end
      end
    end
  end.

Definition u (s : string) : pystr :=
  utf8 (map N_of_ascii (list_ascii_of_string s)).

(** [a == b] on strings. *)
Fixpoint str_eqb (a b : pystr) : bool :=
  match a, b with
  | [], [] => true
  | x :: a', y :: b' => (x =? y)%N && str_eqb a' b'
  | _, _ => false
  end.

(** [s.startswith(p)]. *)
Fixpoint startswith (s p : pystr) : bool :=
  match p, s with
  | [], _ => true
  | y :: p', x :: s' => (x =? y)%N && startswith s' p'
  | _ :: _, [] => false
  end.

(** Membership of a code point in a table of inclusive ranges. *)
Fixpoint in_ranges (c : N) (t : list (N * N)) : bool :=
  match t with
  | [] => false
  | (lo, hi) :: t' => ((lo <=? c) && (c <=? hi))%N || in_ranges c t'
  end.

(** [str.isspace] on one character: the characters [str.strip()] removes. *)
Definition whitespace_table : list (N * N) :=
  [(9, 13); (28, 32); (133, 133); (160, 160); (5760, 5760); (8192, 8202);
   (8232, 8233); (8239, 8239); (8287, 8287); (12288, 12288)]%N.

Definition isspace (c : N) : bool := in_ranges c whitespace_table.

Fixpoint lstrip (s : pystr) : pystr :=
  match s with
  | [] => []
  | c :: s' => if isspace c then lstrip s' else s
  end.

Definition rstrip (s : pystr) : pystr := rev (lstrip (rev s)).

(** [s.strip()]. *)
Definition strip (s : pystr) : pystr := rstrip (lstrip s).

(** [s.split(sep)] for a separator of one character; the empty string splits
    into one empty piece. *)
Fixpoint split (sep : N) (s : pystr) : list pystr :=
  match s with
  | [] => [[]]
  | c :: s' =>
    if (c =? sep)%N then [] :: split sep s'
    else match split sep s' with
         | [] => [[c]]
         | piece :: rest => (c :: piece) :: rest
         end
  end.

Definition NL : N := 10.
Definition COMMA : N := 44.

(** Decimal digits of a natural number, most significant first. *)
Fixpoint uint_chars (d : Decimal.uint) : pystr :=
  match d with
  | Decimal.Nil => []
  | Decimal.D0 d' => 48%N :: uint_chars d'
  | Decimal.D1 d' => 49%N :: uint_chars d'
  | Decimal.D2 d' => 50%N :: uint_chars d'
  | Decimal.D3 d' => 51%N :: uint_chars d'
  | Decimal.D4 d' => 52%N :: uint_chars d'
  | Decimal.D5 d' => 53%N :: uint_chars d'
  | Decimal.D6 d' => 54%N :: uint_chars d'
  | Decimal.D7 d' => 55%N :: uint_chars d'
  | Decimal.D8 d' => 56%N :: uint_chars d'
  | Decimal.D9 d' => 57%N :: uint_chars d'
  end.

Definition digits_of_N (n : N) : pystr := uint_chars (N.to_uint n).

(** [str(z)] for an [int]. *)
Definition str_of_int (z : Z) : pystr :=
  (if (z <? 0)%Z then u "-" else []) ++ digits_of_N (Z.abs_N z).

(** ** Numbers: [int] and [float] *)

Inductive pynum : Type :=
| PInt (z : Z)
| PFloat (f : float).

(** Results of operations that can raise. *)
Inductive pyres (A : Type) : Type :=
| Ok (a : A)
| ZeroDivisionError.
Arguments ZeroDivisionError {A}.

Definition bind {A B : Type} (r : pyres A) (k : A -> pyres B) : pyres B :=
  match r with
  | Ok a => k a
  | ZeroDivisionError => ZeroDivisionError
  end.

Notation "x <- r ;; k" := (bind r (fun x => k))
  (at level 61, r at next level, right associativity).

(** [float(z)]: the nearest double, ties to even. *)
Definition float_of_Z (z : Z) : float :=
  SF2Prim (binary_normalize prec emax z 0 false).

Definition to_float (x : pynum) : float :=
  match x with
  | PInt z => float_of_Z z
  | PFloat f => f
  end.

(** [x + y] and [x * y]: on two [int]s the result is an [int], otherwise the
    [int] operand is converted and the result is a [float]. *)
Definition py_add (x y : pynum) : pynum :=
  match x, y with
  | PInt a, PInt b => PInt (a + b)
  | _, _ => PFloat (to_float x + to_float y)
  end.

Definition py_sub (x y : pynum) : pynum :=
  match x, y with
  | PInt a, PInt b => PInt (a - b)
  | _, _ => PFloat (to_float x - to_float y)
  end.

Definition py_mul (x y : pynum) : pynum :=
  match x, y with
  | PInt a, PInt b => PInt (a * b)
  | _, _ => PFloat (to_float x * to_float y)
  end.

Definition is_zero (x : pynum) : bool :=
  match x with
  | PInt z => (z =? 0)%Z
  | PFloat f => (f =? 0)%float
  end.

(** [x / y], true division: always a [float], and [ZeroDivisionError] on a
    zero divisor of either type.  Two [int]s are divided as doubles, which is
    the correctly rounded quotient Python computes as long as both are below
    [2^53] in magnitude, as the list lengths divided below are. *)
Definition py_truediv (x y : pynum) : pyres pynum :=
  if is_zero y then ZeroDivisionError
  else Ok (PFloat (to_float x / to_float y)).

(** The exact order of an [int] and a [float]; [None] when the float is a NaN. *)
Definition compare_int_float (z : Z) (f : float) : option comparison :=
  match Prim2SF f with
  | S754_nan => None
  | S754_infinity s => Some (if s then Gt else Lt)
  | S754_zero _ => Some (z ?= 0)%Z
  | S754_finite s m e =>
    let v := if s then Z.neg m else Z.pos m in
    Some (if (0 <=? e)%Z then (z ?= v * 2 ^ e)%Z
          else (z * 2 ^ (- e) ?= v)%Z)
  end.

(** [x < y]. *)
Definition py_lt (x y : pynum) : bool :=
  match x, y with
  | PInt a, PInt b => (a <? b)%Z
  | PFloat a, PFloat b => (a <? b)%float
  | PInt a, PFloat b =>
    match compare_int_float a b with Some Lt => true | _ => false end
  | PFloat a, PInt b =>
    match compare_int_float b a with Some Gt => true | _ => false end
  end.

(** [x > y]. *)
Definition py_gt (x y : pynum) : bool := py_lt y x.

(** [sum(xs)]: left to right from the [int] 0, each addition rounded on its
    own, as CPython does up to version 3.11 (from 3.12 on [sum] carries a
    correction term along when it adds [float]s). *)
Definition py_sum (xs : list pynum) : pynum := fold_left py_add xs (PInt 0).

(** [min(xs, default=d)] and [max(xs, default=d)]: the first smallest (largest)
    element, a later element replacing the current one only when it compares
    strictly below (above) it. *)
Definition py_min (xs : list pynum) (d : pynum) : pynum :=
  match xs with
  | [] => d
  | x :: xs' => fold_left (fun best y => if py_lt y best then y else best) xs' x
  end.

Definition py_max (xs : list pynum) (d : pynum) : pynum :=
  match xs with
  | [] => d
  | x :: xs' => fold_left (fun best y => if py_gt y best then y else best) xs' x
  end.

(** ** [format(x, ".2f")] *)

(** [p / q] rounded to the nearest integer, ties to even ([p >= 0], [q > 0]). *)
Definition round_half_even (p q : Z) : Z :=
  let d := (p / q)%Z in
  let r := (p mod q)%Z in
  if (2 * r <? q)%Z then d
  else if (q <? 2 * r)%Z then (d + 1)%Z
  else if Z.even d then d else (d + 1)%Z.

Definition two_digits (n : N) : pystr :=
  (if (n <? 10)%N then u "0" else []) ++ digits_of_N n.

(** A sign and a count of hundredths printed with two decimals. *)
Definition fixed2 (neg : bool) (h : Z) : pystr :=
  let h := Z.abs_N h in
  (if neg then u "-" else [])
    ++ digits_of_N (h / 100) ++ u "." ++ two_digits (h mod 100).

(** The exact value of the double is rounded once, ties to even. *)
Definition format_2f (x : pynum) : pystr :=
  match x with
  | PInt z => fixed2 (z <? 0)%Z (z * 100)
  | PFloat f =>
    match Prim2SF f with
    | S754_nan => u "nan"
    | S754_infinity s => if s then u "-inf" else u "inf"
    | S754_zero s => fixed2 s 0
    | S754_finite s m e =>
      fixed2 s (if (0 <=? e)%Z then Z.pos m * 2 ^ e * 100
                else round_half_even (Z.pos m * 100) (2 ^ (- e)))
    end
  end.


(* ================================================================== *)
(** * Regular expressions, as [re.match] runs them *)

(** The fragment of the pattern language the source uses.  Repetition is
    only ever applied to a character class. *)
Inductive regex : Type :=
| Lit (s : pystr)
| Plus (cls : N -> bool)
| Alt (r1 r2 : regex)
| Seq (r1 r2 : regex)
| Opt (r : regex)
| Group (i : nat) (r : regex).

(** The text of each capture group that took part in the match. *)
Definition groups := nat -> option pystr.

Definition no_groups : groups := fun _ => None.

Definition set_group (i : nat) (s : pystr) (g : groups) : groups :=
  fun j => if Nat.eqb j i then Some s else g j.

Section Matcher.
Variable R : Type.

(** [cls+]: one character of the class, then as many more as possible,
    giving them back one at a time when the rest of the pattern fails. *)
Fixpoint plus_k (cls : N -> bool) (s : pystr) (k : pystr -> option R)
  : option R :=
  match s with
  | [] => None
  | c :: s' =>
    if cls c then
      match plus_k cls s' k with
      | Some x => Some x
      | None => k s'
      end
    else None
  end.

(** Backtracking matcher in continuation-passing style: [k] is the rest of
    the pattern, run on the text that is left and the groups so far.
    Alternatives are tried left to right and [r?] prefers to match. *)
Fixpoint match_k (r : regex) (s : pystr) (g : groups)
         (k : pystr -> groups -> option R) : option R :=
  match r with
  | Lit l => if startswith s l then k (skipn (List.length l) s) g else None
  | Plus cls => plus_k cls s (fun s' => k s' g)
  | Alt r1 r2 =>
    match match_k r1 s g k with
    | Some x => Some x
    | None => match_k r2 s g k
    end
  | Seq r1 r2 => match_k r1 s g (fun s' g' => match_k r2 s' g' k)
  | Opt r' =>
    match match_k r' s g k with
    | Some x => Some x
    | None => k s g
    end
  | Group i r' =>
    match_k r' s g
      (fun s' g' => k s' (set_group i (firstn (List.length s - List.length s') s) g'))
  end.
End Matcher.

(** [re.match(r, s)]: anchored at the start of [s], not at its end. *)
Definition re_match (r : regex) (s : pystr) : option groups :=
  match_k r s no_groups (fun _ g => Some g).

(** [m.group(i)] of a group that took part in the match. *)
Definition group (g : groups) (i : nat) : pystr :=
  match g i with
  | Some s => s
  | None => []
  end.

(** Character classes.  [\d] on a [str] pattern is any Unicode decimal digit
    (general category Nd, Unicode 14.0): every range below holds the ten
    digits of one script, the last one the five sets of mathematical digits. *)
Definition decimal_digit_table : list (N * N) :=
  [(48, 57); (1632, 1641); (1776, 1785); (1984, 1993); (2406, 2415);
   (2534, 2543); (2662, 2671); (2790, 2799); (2918, 2927); (3046, 3055);
   (3174, 3183); (3302, 3311); (3430, 3439); (3558, 3567); (3664, 3673);
   (3792, 3801); (3872, 3881); (4160, 4169); (4240, 4249); (6112, 6121);
   (6160, 6169); (6470, 6479); (6608, 6617); (6784, 6793); (6800, 6809);
   (6992, 7001); (7088, 7097); (7232, 7241); (7248, 7257); (42528, 42537);
   (43216, 43225); (43264, 43273); (43472, 43481); (43504, 43513);
   (43600, 43609); (44016, 44025); (65296, 65305); (66720, 66729);
   (68912, 68921); (69734, 69743); (69872, 69881); (69942, 69951);
   (70096, 70105); (70384, 70393); (70736, 70745); (70864, 70873);
   (71248, 71257); (71360, 71369); (71472, 71481); (71904, 71913);
   (72016, 72025); (72784, 72793); (73040, 73049); (73120, 73129);
   (92768, 92777); (92864, 92873); (93008, 93017); (120782, 120831);
   (123200, 123209); (123632, 123641); (125264, 125273); (130032, 130041)]%N.

Definition AT : N := 64.
Definition DOT : N := 46.

(** [\d], [[\d.]], [[^@]] and [.] (any character but a newline). *)
Definition cls_digit (c : N) : bool := in_ranges c decimal_digit_table.
Definition cls_digit_dot (c : N) : bool := cls_digit c || (c =? DOT)%N.
Definition cls_not_at (c : N) : bool := negb (c =? AT)%N.
Definition cls_any (c : N) : bool := negb (c =? NL)%N.

(** [([^@]+@)?(.+)], the end of the first pattern. *)
Definition re_endpoint : regex :=
  Seq (Opt (Group 2 (Seq (Plus cls_not_at) (Lit (u "@")))))
      (Group 3 (Plus cls_any)).

(** [(http|https|socks5)://([^@]+@)?(.+)] *)
Definition re_scheme : regex :=
  Seq (Group 1 (Alt (Lit (u "http")) (Alt (Lit (u "https")) (Lit (u "socks5")))))
 (Seq (Lit (u "://")) re_endpoint).

(** [[\d.]+:\d+] *)
Definition re_bare : regex :=
  Seq (Plus cls_digit_dot) (Seq (Lit (u ":")) (Plus cls_digit)).

(** [[^@]+@[\d.]+:\d+] *)
Definition re_auth : regex :=
  Seq (Plus cls_not_at) (Seq (Lit (u "@")) re_bare).

(** The texts a pattern matches as a whole, declaratively: what the
    backtracking matcher is compared with below. *)
Inductive lang : regex -> pystr -> Prop :=
| lang_lit (l : pystr) : lang (Lit l) l
| lang_plus (cls : N -> bool) (c : N) (s : pystr) :
    cls c = true -> Forall (fun x => cls x = true) s -> lang (Plus cls) (c :: s)
| lang_alt_l (r1 r2 : regex) (a : pystr) : lang r1 a -> lang (Alt r1 r2) a
| lang_alt_r (r1 r2 : regex) (a : pystr) : lang r2 a -> lang (Alt r1 r2) a
| lang_seq (r1 r2 : regex) (a b : pystr) :
    lang r1 a -> lang r2 b -> lang (Seq r1 r2) (a ++ b)
| lang_opt_none (r : regex) : lang (Opt r) []
| lang_opt_some (r : regex) (a : pystr) : lang r a -> lang (Opt r) a
| lang_group (i : nat) (r : regex) (a : pystr) : lang r a -> lang (Group i r) a.

(** The protocols a line may name. *)
Definition schemes : list pystr := [u "http"; u "https"; u "socks5"].

(** Some prefix of [s] is matched by [r]. *)
Definition prefix_in (r : regex) (s : pystr) : Prop :=
  exists a b, s = a ++ b /\ lang r a.

(* ================================================================== *)
(** * [parse_proxies]

    The function of [proxy_checker_cli.py] and the method of
    [ProxyCheckerGUI] are the same text. *)

Definition is_some {A : Type} (o : option A) : bool :=
  match o with Some _ => true | None => false end.

(** One turn of the loop over the lines: [proxies] is the list built so far. *)
Definition parse_line (proxies : list (pystr * pystr)) (line : pystr)
  : list (pystr * pystr) :=
  let line := strip line in
  if str_eqb line [] || startswith line (u "#") then proxies
  else
    match re_match re_scheme line with
    | Some m =>
      let protocol := group m 1 in
      let auth := match m 2 with Some a => a | None => u "" end in
      let proxy := group m 3 in
      proxies ++ [(auth ++ proxy, protocol)]
    | None =>
      if is_some (re_match re_auth line) then proxies ++ [(line, u "http")]
      else if is_some (re_match re_bare line) then proxies ++ [(line, u "http")]
      else proxies
    end.

Definition parse_proxies (text : pystr) : list (pystr * pystr) :=
  fold_left parse_line (split NL (strip text)) [].

(* ================================================================== *)
(** * [ProxyResult], the network and the clock *)

(** The dataclass of both files; [error] defaults to the empty string. *)
Record ProxyResult : Type := mkProxyResult {
  proxy : pystr;
  protocol : pystr;
  status : pystr;
  latency : pynum;
  error : pystr
}.

(** The exception classes the [except] clauses test for. *)
Inductive exc_type : Type :=
| requests_Timeout
| requests_ProxyError
| asyncio_TimeoutError.

(** A raised exception [e] (a subclass of [Exception]): which of the classes
    above it is an instance of, and [str(e)]. *)
Record exception : Type := mkException {
  isinstance : exc_type -> bool;
  str_of_exc : pystr
}.

(** What one request through a proxy comes to: a response with its status
    code, or an exception. *)
Inductive outcome : Type :=
| Response (status_code : Z)
| Raises (e : exception).

(** The request a probe sends: the target, the proxy URL, the timeout and
    whether the proxy is reached through a SOCKS connector. *)
Record request : Type := mkRequest {
  req_url : pystr;
  req_proxy_url : pystr;
  req_timeout : Z;
  req_socks_connector : bool
}.

(** The outside world of one probe: the two readings of [time.time()], before
    the request and once the response is there, and the network's answer. *)
Record probe_env : Type := mkEnv {
  time_at_start : float;
  http_get : request -> outcome;
  time_at_response : float
}.

(** The test URL with an explicit scheme, as both [check_proxy] compute it. *)
Definition with_scheme (test_url : pystr) : pystr :=
  if negb (startswith test_url (u "http://") || startswith test_url (u "https://"))
  then u "http://" ++ test_url
  else test_url.

(** [(time.time() - start_time) * 1000] *)
Definition elapsed_ms (env : probe_env) : pynum :=
  py_mul (py_sub (PFloat (time_at_response env)) (PFloat (time_at_start env)))
         (PInt 1000).

(** A dict with [str] keys, in insertion order. *)
Definition pydict := list (pystr * pynum).

Fixpoint dict_get (d : pydict) (key : pystr) : option pynum :=
  match d with
  | [] => None
  | (k, v) :: d' => if str_eqb k key then Some v else dict_get d' key
  end.

Definition len {A : Type} (l : list A) : pynum := PInt (Z.of_nat (List.length l)).

Definition is_success (r : ProxyResult) : bool := str_eqb (status r) (u "success").

(* ================================================================== *)
(** * The gate of a batch run

    Every pair is handed over at once and at most [concurrency] of them are
    past the gate at a time, taken in input order; a probe that ends has its
    result appended to the list.  A run is a sequence of events, and the order
    in which probes end is free.  This is the batch of [proxy_checker_cli.py]
    as it stands: a task appends its result in the very step in which its
    probe returns.  The batch of [proxy_checker.py], where the results go
    through [as_completed], is further down. *)

Record batch : Type := mkBatch {
  queued : list (pystr * pystr);
  in_flight : list (pystr * pystr);
  results : list ProxyResult
}.

Inductive event : Type :=
| Start                                   (* the next pair passes the gate *)
| Finish (i : nat) (env : probe_env).     (* the i-th probe in flight ends *)

Fixpoint remove_nth {A : Type} (i : nat) (l : list A) : list A :=
  match i, l with
  | _, [] => []
  | O, _ :: l' => l'
  | S i', x :: l' => x :: remove_nth i' l'
  end.

Fixpoint set_nth {A : Type} (i : nat) (x : A) (l : list A) : list A :=
  match i, l with
  | _, [] => []
  | O, _ :: l' => x :: l'
  | S i', y :: l' => y :: set_nth i' x l'
  end.

Section Batch.
(** The probe of the file at hand and the concurrency ceiling. *)
Variable probe : probe_env -> pystr -> pystr -> ProxyResult.
Variable concurrency : Z.

(** [self.results = []], then all the pairs are handed over. *)
Definition batch_init (proxies : list (pystr * pystr)) : batch :=
  {| queued := proxies; in_flight := []; results := [] |}.

Definition fire (b : batch) (e : event) : option batch :=
  match e with
  | Start =>
    match queued b with
    | t :: q =>
      if (Z.of_nat (List.length (in_flight b)) <? concurrency)%Z
      then Some {| queued := q; in_flight := in_flight b ++ [t];
                   results := results b |}
      else None
    | [] => None
    end
  | Finish i env =>
    match nth_error (in_flight b) i with
    | Some (proxy, protocol) =>
      Some {| queued := queued b; in_flight := remove_nth i (in_flight b);
              results := results b ++ [probe env proxy protocol] |}
    | None => None
    end
  end.

Fixpoint run (b : batch) (es : list event) : option batch :=
  match es with
  | [] => Some b
  | e :: es' =>
    match fire b e with
    | Some b' => run b' es'
    | None => None
    end
  end.

(** The batch returns [self.results] once nothing is queued or in flight. *)
Definition finished (b : batch) : bool :=
  match queued b, in_flight b with
  | [], [] => true
  | _, _ => false
  end.

End Batch.

(* ================================================================== *)
(** * [proxy_checker.py]: class [ProxyChecker] *)

Module ProxyChecker.

Record t : Type := mk {
  test_url : pystr;
  timeout : Z
}.

(** The call of [requests.get]: the proxy URL serves both schemes. *)
Definition request_of (self : t) (proxy protocol : pystr) : request :=
  let proxy_url := protocol ++ u "://" ++ proxy in
  let test_url := with_scheme (test_url self) in
  {| req_url := test_url; req_proxy_url := proxy_url;
     req_timeout := timeout self; req_socks_connector := false |}.

Definition check_proxy (self : t) (env : probe_env) (proxy protocol : pystr)
  : ProxyResult :=
  match http_get env (request_of self proxy protocol) with
  | Response status_code =>
    let latency := elapsed_ms env in
    if (status_code =? 200)%Z
    then mkProxyResult proxy protocol (u "success") latency (u "")
    else mkProxyResult proxy protocol (u "failed") latency
                       (u "HTTP " ++ str_of_int status_code)
  | Raises e =>
    if isinstance e requests_Timeout
    then mkProxyResult proxy protocol (u "timeout")
                       (py_mul (PInt (timeout self)) (PInt 1000))
                       (u "连接超时")
    else if isinstance e requests_ProxyError
    then mkProxyResult proxy protocol (u "failed") (PInt 0)
                       (u "代理错误: " ++ firstn 50 (str_of_exc e))
    else mkProxyResult proxy protocol (u "failed") (PInt 0)
                       (firstn 50 (str_of_exc e))
  end.

(** ** [check_proxies_batch]: the thread pool and the loop over [as_completed]

    [executor.submit] hands every pair to the pool at once; the worker
    threads of the pool, at most [max_workers] of them, take the pairs in the
    order they were handed in and run [check_proxy] on them.  [as_completed]
    first gives out the futures that were done when it was entered, in the
    order of a [set], which is any order, and after them the others in the
    order they get done.  The loop appends the result of every future it is
    given to [self.results]. *)

Record thread_pool : Type := mkPool {
  pending : list (pystr * pystr);            (* handed in, not yet taken by a worker thread *)
  running : list (pystr * pystr * request);  (* being probed, with the request that was made *)
  finished_set : list ProxyResult;           (* done before [as_completed] was entered, not yet given out *)
  finished_futures : list ProxyResult;       (* done since then, not yet given out, oldest first *)
  entered : bool                             (* [as_completed] has been entered *)
}.

Inductive pool_event : Type :=
| Take                                 (* a worker thread takes the next pair and calls [check_proxy] *)
| Done (i : nat) (env : probe_env)     (* the i-th probe that is running ends *)
| Enter                                (* the loop enters [as_completed] *)
| Yield (k : nat).                     (* [as_completed] gives out a future, the loop appends its result *)

(** The world of a probe as it ends, its request having been made when it
    started. *)
Definition answering (env : probe_env) (req : request) : probe_env :=
  {| time_at_start := time_at_start env;
     http_get := fun _ => http_get env req;
     time_at_response := time_at_response env |}.

Definition pool_init (proxies : list (pystr * pystr)) : thread_pool :=
  {| pending := proxies; running := []; finished_set := [];
     finished_futures := []; entered := false |}.

(** One step of the pool or of the loop, [self] being the checker as it is at
    that moment: the pool afterwards and what the loop appends to
    [self.results].  A probe reads [test_url] and the [timeout] of its request
    when it starts, and [timeout] again when it handles a timeout.
    [ThreadPoolExecutor] raises [ValueError] for [max_workers] below one, so
    nothing happens then. *)
Definition pool_fire (self : t) (concurrency : Z) (p : thread_pool)
           (e : pool_event) : option (thread_pool * list ProxyResult) :=
  if (concurrency <? 1)%Z then None
  else
    match e with
    | Take =>
      match pending p with
      | (proxy, protocol) :: rest =>
        if (Z.of_nat (List.length (running p)) <? concurrency)%Z
        then Some ({| pending := rest;
                      running := running p
                                   ++ [(proxy, protocol, request_of self proxy protocol)];
                      finished_set := finished_set p;
                      finished_futures := finished_futures p;
                      entered := entered p |}, [])
        else None
      | [] => None
      end
    | Done i env =>
      match nth_error (running p) i with
      | Some (proxy, protocol, req) =>
        let result := check_proxy self (answering env req) proxy protocol in
        Some ({| pending := pending p;
                 running := remove_nth i (running p);
                 finished_set :=
                   if entered p then finished_set p else finished_set p ++ [result];
                 finished_futures :=
                   if entered p then finished_futures p ++ [result]
                   else finished_futures p;
                 entered := entered p |}, [])
      | None => None
      end
    | Enter =>
      if entered p then None
      else Some ({| pending := pending p; running := running p;
                    finished_set := finished_set p;
                    finished_futures := finished_futures p;
                    entered := true |}, [])
    | Yield k =>
      if entered p then
        match finished_set p with
        | _ :: _ =>
          match nth_error (finished_set p) k with
          | Some result =>
            Some ({| pending := pending p; running := running p;
                     finished_set := remove_nth k (finished_set p);
                     finished_futures := finished_futures p;
                     entered := true |}, [result])
          | None => None
          end
        | [] =>
          match k, finished_futures p with
          | O, result :: rest =>
            Some ({| pending := pending p; running := running p;
                     finished_set := [];
                     finished_futures := rest;
                     entered := true |}, [result])
          | _, _ => None
          end
        end
      else None
    end.

(** The events at which the loop appends a result and reports the count. *)
Definition appends (e : pool_event) : bool :=
  match e with Yield _ => true | _ => false end.

(** One call of [check_proxies_batch] on a checker that nothing else touches
    meanwhile: its pool and [self.results]. *)
Record call : Type := mkCall {
  pool : thread_pool;
  self_results : list ProxyResult
}.

(** [self.results = []], then all the pairs are handed to the pool. *)
Definition call_init (proxies : list (pystr * pystr)) : call :=
  {| pool := pool_init proxies; self_results := [] |}.

Definition call_fire (self : t) (concurrency : Z) (b : call) (e : pool_event)
  : option call :=
  match pool_fire self concurrency (pool b) e with
  | Some (p, more) => Some {| pool := p; self_results := self_results b ++ more |}
  | None => None
  end.

Fixpoint call_run (self : t) (concurrency : Z) (b : call) (es : list pool_event)
  : option call :=
  match es with
  | [] => Some b
  | e :: es' =>
    match call_fire self concurrency b e with
    | Some b' => call_run self concurrency b' es'
    | None => None
    end
  end.

(** The loop is over, and the call returns [self.results], once
    [as_completed] has been entered and has given out every future. *)
Definition pool_returned (p : thread_pool) : bool :=
  entered p
  && match pending p, running p, finished_set p, finished_futures p with
     | [], [], [], [] => true
     | _, _, _, _ => false
     end.

Definition returned (b : call) : bool := pool_returned (pool b).

(** [check_proxies_batch(proxies, concurrency)]: the runs of the call. *)
Definition check_proxies_batch (self : t) (concurrency : Z)
           (proxies : list (pystr * pystr)) (es : list pool_event) : option call :=
  call_run self concurrency (call_init proxies) es.

(** [get_statistics]; the empty dict for no results. *)
Definition get_statistics (results : list ProxyResult) : pyres pydict :=
  match results with
  | [] => Ok []
  | _ :: _ =>
    let total := len results in
    let success := filter is_success results in
    let success_count := len success in
    avg_latency <-
      (if py_gt success_count (PInt 0)
       then py_truediv (py_sum (map latency success)) success_count
       else Ok (PInt 0)) ;;
    let min_latency := py_min (map latency success) (PInt 0) in
    let max_latency := py_max (map latency success) (PInt 0) in
    success_rate <-
      (if py_gt total (PInt 0)
       then q <- py_truediv success_count total ;; Ok (py_mul q (PInt 100))
       else Ok (PInt 0)) ;;
    Ok [(u "total", total);
        (u "success", success_count);
        (u "failed", py_sub total success_count);
        (u "success_rate", success_rate);
        (u "avg_latency", avg_latency);
        (u "min_latency", min_latency);
        (u "max_latency", max_latency)]
  end.

End ProxyChecker.

(* ================================================================== *)
(** * [proxy_checker.py]: class [ProxyCheckerGUI], the part around a check

    The two buttons, the flag, the checker of the window and the threads that
    [start_check] starts on [run_check].  All the threads work on the one
    checker: [start_check] sets its [test_url] and [timeout], and every call
    of [check_proxies_batch] begins by putting an empty list in its
    [results]. *)

Module ProxyCheckerGUI.

Inductive button : Type := NORMAL | DISABLED.

(** A thread started on [run_check]. *)
Inductive thread : Type :=
| Called (proxies : list (pystr * pystr))
    (* it has not entered [check_proxies_batch] yet *)
| InBatch (concurrency : Z) (p : ProxyChecker.thread_pool)
    (* it is inside [check_proxies_batch], or has left it *)
| Over (concurrency : Z) (p : ProxyChecker.thread_pool).
    (* the main loop has run the [check_complete] it left behind *)

Record t : Type := mk {
  is_checking : bool;
  start_btn : button;
  stop_btn : button;
  checker : ProxyChecker.t;              (* [self.checker]: its [test_url] and [timeout] *)
  checker_results : list ProxyResult;    (* [self.checker.results] *)
  threads : list thread
}.

(** The window as [__init__] and [setup_ui] leave it. *)
Definition window : t :=
  {| is_checking := false; start_btn := NORMAL; stop_btn := DISABLED;
     checker := {| ProxyChecker.test_url := u "http://www.google.com";
                   ProxyChecker.timeout := 10 |};
     checker_results := []; threads := [] |}.

(** [start_check], past the parsing, [url] and [timeout] being what the two
    entry fields hold: on an empty list a warning and nothing else; otherwise
    the checker is set, the flag and the buttons are switched and a thread is
    started on [run_check]. *)
Definition start_check (self : t) (url : pystr) (timeout : Z)
           (proxies : list (pystr * pystr)) : t :=
  match proxies with
  | [] => self
  | _ :: _ =>
    {| is_checking := true; start_btn := DISABLED; stop_btn := NORMAL;
       checker := {| ProxyChecker.test_url := url; ProxyChecker.timeout := timeout |};
       checker_results := checker_results self;
       threads := threads self ++ [Called proxies] |}
  end.

(** [stop_check]: the flag and the buttons, nothing else. *)
Definition stop_check (self : t) : t :=
  {| is_checking := false; start_btn := NORMAL; stop_btn := DISABLED;
     checker := checker self;
     checker_results := checker_results self;
     threads := threads self |}.

(** [check_complete], as far as the flag and the buttons go. *)
Definition check_complete (self : t) : t :=
  {| is_checking := false; start_btn := NORMAL; stop_btn := DISABLED;
     checker := checker self;
     checker_results := checker_results self;
     threads := threads self |}.

(** What happens in the window: a button that is not disabled is pressed, a
    thread enters [check_proxies_batch] with the concurrency it has just read,
    the pool or the loop of a thread moves on, or the main loop runs the
    [check_complete] of a thread whose batch is over. *)
Inductive gui_event : Type :=
| StartPressed (url : pystr) (timeout : Z) (proxies : list (pystr * pystr))
| StopPressed
| Begin (tid : nat) (concurrency : Z)
| Worker (tid : nat) (e : ProxyChecker.pool_event)
| Completed (tid : nat).

Definition with_threads (self : t) (results : list ProxyResult)
           (threads : list thread) : t :=
  {| is_checking := is_checking self;
     start_btn := start_btn self;
     stop_btn := stop_btn self;
     checker := checker self;
     checker_results := results;
     threads := threads |}.

Definition gui_fire (self : t) (e : gui_event) : option t :=
  match e with
  | StartPressed url timeout proxies =>
    match start_btn self with
    | NORMAL => Some (start_check self url timeout proxies)
    | DISABLED => None
    end
  | StopPressed =>
    match stop_btn self with
    | NORMAL => Some (stop_check self)
    | DISABLED => None
    end
  | Begin tid concurrency =>
    match nth_error (threads self) tid with
    | Some (Called proxies) =>
      Some (with_threads self []
              (set_nth tid (InBatch concurrency (ProxyChecker.pool_init proxies))
                       (threads self)))
    | _ => None
    end
  | Worker tid e' =>
    match nth_error (threads self) tid with
    | Some (InBatch concurrency p) =>
      match ProxyChecker.pool_fire (checker self) concurrency p e' with
      | Some (p', more) =>
        Some (with_threads self (checker_results self ++ more)
                (set_nth tid (InBatch concurrency p') (threads self)))
      | None => None
      end
    | _ => None
    end
  | Completed tid =>
    match nth_error (threads self) tid with
    | Some (InBatch concurrency p) =>
      if ProxyChecker.pool_returned p || (concurrency <? 1)%Z
      then Some (check_complete
                   (with_threads self (checker_results self)
                      (set_nth tid (Over concurrency p) (threads self))))
      else None
    | _ => None
    end
  end.

Fixpoint gui_run (self : t) (es : list gui_event) : option t :=
  match es with
  | [] => Some self
  | e :: es' =>
    match gui_fire self e with
    | Some self' => gui_run self' es'
    | None => None
    end
  end.







End ProxyCheckerGUI.

(* ================================================================== *)
(** * [proxy_checker_cli.py]: class [ProxyCheckerCLI] *)

Module ProxyCheckerCLI.

Record t : Type := mk {
  test_url : pystr;
  timeout : Z;
  concurrency : Z;
  verbose : bool
}.

Section Probe.
(** [str.lower], whose case tables are not part of the program. *)
Variable lower : pystr -> pystr.

(** Both branches of the source build the same results; they differ in
    how the proxy is reached. *)
(** The call of [session.get], through a SOCKS connector when the
    protocol says so. *)
Definition request_of (self : t) (proxy protocol : pystr) : request :=
  let proxy_url := protocol ++ u "://" ++ proxy in
  let test_url := with_scheme (test_url self) in
  {| req_url := test_url; req_proxy_url := proxy_url;
     req_timeout := timeout self;
     req_socks_connector := str_eqb (lower protocol) (u "socks5") |}.

Definition check_proxy (self : t) (env : probe_env) (proxy protocol : pystr)
  : ProxyResult :=
  let socks := str_eqb (lower protocol) (u "socks5") in
  match http_get env (request_of self proxy protocol) with
  | Response status_code =>
    let latency := elapsed_ms env in
    if socks then
      if (status_code =? 200)%Z
      then mkProxyResult proxy protocol (u "success") latency (u "")
      else mkProxyResult proxy protocol (u "failed") latency
                         (u "HTTP " ++ str_of_int status_code)
    else
      if (status_code =? 200)%Z
      then mkProxyResult proxy protocol (u "success") latency (u "")
      else mkProxyResult proxy protocol (u "failed") latency
                         (u "HTTP " ++ str_of_int status_code)
  | Raises e =>
    if isinstance e asyncio_TimeoutError
    then mkProxyResult proxy protocol (u "timeout")
                       (py_mul (PInt (timeout self)) (PInt 1000))
                       (u "连接超时")
    else mkProxyResult proxy protocol (u "failed") (PInt 0) (str_of_exc e)
  end.

Definition check_proxies_batch (self : t) (proxies : list (pystr * pystr))
           (es : list event) : option batch :=
  run (check_proxy self) (concurrency self) (batch_init proxies) es.
End Probe.

(** [get_statistics]; [None] for no results. *)
Definition get_statistics (results : list ProxyResult) : pyres (option pydict) :=
  match results with
  | [] => Ok None
  | _ :: _ =>
    let total := len results in
    let success := filter is_success results in
    let success_count := len success in
    avg_latency <-
      (if py_gt success_count (PInt 0)
       then py_truediv (py_sum (map latency success)) success_count
       else Ok (PInt 0)) ;;
    let min_latency := py_min (map latency success) (PInt 0) in
    let max_latency := py_max (map latency success) (PInt 0) in
    success_rate <-
      (if py_gt total (PInt 0)
       then q <- py_truediv success_count total ;; Ok (py_mul q (PInt 100))
       else Ok (PInt 0)) ;;
    Ok (Some [(u "total", total);
              (u "success", success_count);
              (u "failed", py_sub total success_count);
              (u "success_rate", success_rate);
              (u "avg_latency", avg_latency);
              (u "min_latency", min_latency);
              (u "max_latency", max_latency)])
  end.

(** The fields of one row, as the f-string formats them. *)
Definition csv_fields (r : ProxyResult) : list pystr :=
  [proxy r; protocol r; status r; format_2f (latency r); error r].

Definition csv_header : pystr := u "代理,协议,状态,延迟(ms),错误信息".

Definition csv_row (r : ProxyResult) : pystr :=
  proxy r ++ u "," ++ protocol r ++ u "," ++ status r ++ u ","
    ++ format_2f (latency r) ++ u "," ++ error r ++ [NL].

(** [_export_csv(f)]: the text written to [f], after what [f] held. *)
Definition _export_csv (results : list ProxyResult) (f : pystr) : pystr :=
  fold_left (fun f r => f ++ csv_row r) results
            (f ++ csv_header ++ [NL]).

End ProxyCheckerCLI.

(** The way back from a CSV text, which the program itself never takes: one
    row per line, the fields of a row between its commas (no quoting, as none
    is written). *)
Definition read_csv (text : pystr) : list (list pystr) :=
  map (split COMMA) (removelast (split NL text)).

(** A row without the newline that ends it. *)
Definition csv_line (r : ProxyResult) : pystr :=
  proxy r ++ COMMA :: protocol r ++ COMMA :: status r ++ COMMA
    :: format_2f (latency r) ++ COMMA :: error r.

(** Texts that hold neither a comma nor a newline, and results whose four
    text fields are such. *)
Definition plain_char (c : N) : bool := negb (c =? COMMA)%N && negb (c =? NL)%N.

Definition plain_text (s : pystr) : bool := forallb plain_char s.

Definition plain_result (r : ProxyResult) : bool :=
  plain_text (proxy r) && plain_text (protocol r)
  && plain_text (status r) && plain_text (error r).

(** The pair a result answers for. *)
Definition key (r : ProxyResult) : pystr * pystr := (proxy r, protocol r).

(** The pairs of a batch, wherever they stand: answered, in flight, queued. *)
Definition all_pairs (b : batch) : list (pystr * pystr) :=
  map key (results b) ++ in_flight b ++ queued b.



(** The pairs of a call of the window's checker, wherever they stand:
    appended, done and waiting to be given out, running, pending. *)
Definition call_pairs (b : ProxyChecker.call) : list (pystr * pystr) :=
  map key (ProxyChecker.self_results b)
    ++ map key (ProxyChecker.finished_set (ProxyChecker.pool b))
    ++ map key (ProxyChecker.finished_futures (ProxyChecker.pool b))
    ++ map fst (ProxyChecker.running (ProxyChecker.pool b))
    ++ ProxyChecker.pending (ProxyChecker.pool b).

(** Events still to come in a call: a pending pair has to be taken, to end
    and to be given out, and the loop has to be entered. *)
Definition pool_work (p : ProxyChecker.thread_pool) : nat :=
  (3 * List.length (ProxyChecker.pending p)
   + 2 * List.length (ProxyChecker.running p)
   + List.length (ProxyChecker.finished_set p)
   + List.length (ProxyChecker.finished_futures p)
   + if ProxyChecker.entered p then 0 else 1)%nat.

(** The mean latency in the words of the specification, for latencies that
    are [float]s: they are added up as doubles one after the other, starting
    from zero, and the sum is divided by their number. *)
Definition mean_latency (fs : list float) : float :=
  (fold_left PrimFloat.add fs 0 / float_of_Z (Z.of_nat (List.length fs)))%float.

(* ================================================================== *)
(** * Concrete inputs used below *)

Definition identity_lower (s : pystr) : pystr := s.

Definition response_env (code : Z) : probe_env :=
  {| time_at_start := 100; http_get := fun _ => Response code;
     time_at_response := 100.25 |}.

Definition raising_env (e : exception) : probe_env :=
  {| time_at_start := 100; http_get := fun _ => Raises e;
     time_at_response := 100.25 |}.

Definition gui_checker : ProxyChecker.t :=
  {| ProxyChecker.test_url := u "www.google.com"; ProxyChecker.timeout := 2 |}.

Definition cli_checker : ProxyCheckerCLI.t :=
  {| ProxyCheckerCLI.test_url := u "http://www.google.com";
     ProxyCheckerCLI.timeout := 2; ProxyCheckerCLI.concurrency := 1;
     ProxyCheckerCLI.verbose := false |}.

Definition timeout_exc : exception :=
  {| isinstance := fun c => match c with requests_ProxyError => false | _ => true end;
     str_of_exc := u "Read timed out. (read timeout=2)" |}.

Definition proxy_error_exc : exception :=
  {| isinstance := fun c => match c with requests_ProxyError => true | _ => false end;
     str_of_exc := u "Cannot connect to proxy." |}.

Definition long_exc : exception :=
  {| isinstance := fun _ => false;
     str_of_exc := u "Cannot connect to host 10.0.0.1:8080 ssl:default [Connect call failed]" |}.

Definition result_of (st : pystr) (ms : float) : ProxyResult :=
  mkProxyResult (u "10.0.0.1:8080") (u "http") st (PFloat ms) (u "").

(** Seven successes, two failures and a timeout. *)
Definition ten_results : list ProxyResult :=
  [result_of (u "success") 120.5; result_of (u "failed") 0;
   result_of (u "success") 80.25; result_of (u "success") 95;
   result_of (u "timeout") 10000; result_of (u "success") 300.125;
   result_of (u "success") 64; result_of (u "failed") 0;
   result_of (u "success") 77.75; result_of (u "success") 150].

Definition three_proxies : list (pystr * pystr) :=
  [(u "10.0.0.1:8080", u "http"); (u "user:pw@10.0.0.2:1080", u "socks5");
   (u "10.0.0.3:3128", u "https")].



(** One probe after the other. *)
Definition cli_in_order : list event :=
  [Start; Finish 0 (response_env 200); Start; Finish 0 (response_env 404);
   Start; Finish 0 (raising_env timeout_exc)].

(** The same in the thread pool: two probes are done when the loop enters
    [as_completed], which gives out the second of them first, and the third
    ends afterwards. *)
Definition out_of_order : list ProxyChecker.pool_event :=
  [ProxyChecker.Take; ProxyChecker.Take;
   ProxyChecker.Done 1 (response_env 200); ProxyChecker.Take;
   ProxyChecker.Done 0 (raising_env timeout_exc); ProxyChecker.Enter;
   ProxyChecker.Done 0 (response_env 404);
   ProxyChecker.Yield 1; ProxyChecker.Yield 0; ProxyChecker.Yield 0].


(** The same check stopped after its first result, and a second check of one
    pair started while the first is still running. *)
Definition restart_trace : list ProxyCheckerGUI.gui_event :=
  [ProxyCheckerGUI.StartPressed (u "www.google.com") 2 three_proxies;
   ProxyCheckerGUI.Begin 0 1;
   ProxyCheckerGUI.Worker 0 ProxyChecker.Enter;
   ProxyCheckerGUI.Worker 0 ProxyChecker.Take;
   ProxyCheckerGUI.Worker 0 (ProxyChecker.Done 0 (response_env 200));
   ProxyCheckerGUI.Worker 0 (ProxyChecker.Yield 0);
   ProxyCheckerGUI.StopPressed;
   ProxyCheckerGUI.StartPressed (u "www.google.com") 2 [(u "10.0.0.9:80", u "http")];
   ProxyCheckerGUI.Begin 1 1;
   ProxyCheckerGUI.Worker 0 ProxyChecker.Take;
   ProxyCheckerGUI.Worker 0 (ProxyChecker.Done 0 (response_env 404));
   ProxyCheckerGUI.Worker 0 (ProxyChecker.Yield 0);
   ProxyCheckerGUI.Worker 0 ProxyChecker.Take;
   ProxyCheckerGUI.Worker 0 (ProxyChecker.Done 0 (raising_env timeout_exc));
   ProxyCheckerGUI.Worker 0 (ProxyChecker.Yield 0)].

(** Two successes whose latencies differ in the fourth decimal, and a failure
    whose message holds a comma. *)
Definition fast_result : ProxyResult :=
  mkProxyResult (u "10.0.0.1:8080") (u "http") (u "success") (PFloat 1.234) (u "").

Definition fast_result' : ProxyResult :=
  mkProxyResult (u "10.0.0.1:8080") (u "http") (u "success") (PFloat 1.2341) (u "").

Definition comma_result : ProxyResult :=
  mkProxyResult (u "10.0.0.1:8080") (u "http") (u "failed") (PInt 0)
    (u "Cannot connect to host 10.0.0.1:8080 ssl:default [Connect call failed ('10.0.0.1', 8080)]").


Definition cli_in_order_end : batch :=
  Eval vm_compute in
    match ProxyCheckerCLI.check_proxies_batch identity_lower cli_checker
            three_proxies cli_in_order with
    | Some b => b
    | None => batch_init []
    end.

Definition out_of_order_end : ProxyChecker.call :=
  Eval vm_compute in
    match ProxyChecker.check_proxies_batch gui_checker 2 three_proxies out_of_order with
    | Some b => b
    | None => ProxyChecker.call_init []
    end.


Definition restart_trace_end : ProxyCheckerGUI.t :=
  Eval vm_compute in
    match ProxyCheckerGUI.gui_run ProxyCheckerGUI.window restart_trace with
    | Some g => g
    | None => ProxyCheckerGUI.window
    end.

(* ================================================================== *)
(** * [proxy_checker.py]: the progress bar and the result table of the window

    The worker thread runs the batch; after each result it hands
    [update_progress] the count so far, which leaves a call of [update] with
    the main loop ([root.after(0, update)]).  When the main loop gets to it,
    [update] sets the bar and the label from the counts it was given and adds
    to the table the result that is last in [self.checker.results] at that
    moment.  The table is followed through one check that has the checker to
    itself; what a further [start_check] does to the checker is in
    [ProxyCheckerGUI] above. *)

Module ProxyCheckerTable.

(** A row of the table: its five columns and the tag that colours it. *)
Record tree_row : Type := mkRow {
  values : list pystr;
  tags : pystr
}.

(** [add_result_to_tree]: the row of a result, put at the end of the table. *)
Definition row_of (result : ProxyResult) : tree_row :=
  {| values :=
       [proxy result;
        protocol result;
        if str_eqb (status result) (u "success") then u "✓ 成功"
        else if str_eqb (status result) (u "failed") then u "✗ 失败"
        else u "⏱ 超时";
        if py_gt (latency result) (PInt 0) then format_2f (latency result)
        else u "-";
        error result];
     tags := status result |}.

Definition add_result_to_tree (tree : list tree_row) (result : ProxyResult)
  : list tree_row :=
  tree ++ [row_of result].

(** [l[-1]] of a list that is not empty. *)
Fixpoint last_of {A : Type} (l : list A) : option A :=
  match l with
  | [] => None
  | [x] => Some x
  | _ :: l' => last_of l'
  end.

Record t : Type := mk {
  worker : ProxyChecker.call;    (* the call of the batch, with [self.checker.results] *)
  total : Z;                     (* [len(proxies)], fixed when the batch starts *)
  after_queue : list (Z * Z);    (* the calls of [update] the main loop holds *)
  progress_var : pynum;
  progress_label : pystr;
  result_tree : list tree_row
}.

(** [start_check], past the parsing: nothing starts on an empty list; else
    the table is emptied, the bar is set to 0 and the thread is started. *)
Definition start_check (proxies : list (pystr * pystr)) : option t :=
  match proxies with
  | [] => None
  | _ :: _ =>
    Some {| worker := ProxyChecker.call_init proxies;
            total := Z.of_nat (List.length proxies);
            after_queue := [];
            progress_var := PInt 0;
            progress_label := u "0/" ++ str_of_int (Z.of_nat (List.length proxies));
            result_tree := [] |}
  end.

Inductive table_event : Type :=
| Thread (e : ProxyChecker.pool_event)    (* the batch moves on in its thread *)
| Update.                  (* the main loop runs the oldest call of [update] *)

(** [update()], with the counts [current] and [total] it was scheduled with. *)
Definition update (self : t) (cur tot : Z) (rest : list (Z * Z)) : pyres t :=
  q <- py_truediv (PInt cur) (PInt tot) ;;
  let progress := py_mul q (PInt 100) in
  Ok {| worker := worker self;
        total := total self;
        after_queue := rest;
        progress_var := progress;
        progress_label := str_of_int cur ++ u "/" ++ str_of_int tot;
        result_tree :=
          match last_of (ProxyChecker.self_results (worker self)) with
          | Some result => add_result_to_tree (result_tree self) result
          | None => result_tree self
          end |}.

Definition table_fire (checker : ProxyChecker.t) (concurrency : Z) (self : t)
           (e : table_event) : option (pyres t) :=
  match e with
  | Thread e' =>
    match ProxyChecker.call_fire checker concurrency (worker self) e' with
    | Some b =>
      Some (Ok {| worker := b;
                  total := total self;
                  after_queue :=
                    if ProxyChecker.appends e'
                    then after_queue self
                           ++ [(Z.of_nat (List.length (ProxyChecker.self_results b)),
                                total self)]
                    else after_queue self;
                  progress_var := progress_var self;
                  progress_label := progress_label self;
                  result_tree := result_tree self |})
    | None => None
    end
  | Update =>
    match after_queue self with
    | [] => None
    | (cur, tot) :: rest => Some (update self cur tot rest)
    end
  end.

Fixpoint table_run (checker : ProxyChecker.t) (concurrency : Z) (self : t)
         (es : list table_event) : option (pyres t) :=
  match es with
  | [] => Some (Ok self)
  | e :: es' =>
    match table_fire checker concurrency self e with
    | Some (Ok self') => table_run checker concurrency self' es'
    | Some ZeroDivisionError => Some ZeroDivisionError
    | None => None
    end
  end.

(** The main loop keeping up: every result is followed by its update. *)
Definition in_step (es : list ProxyChecker.pool_event) : list table_event :=
  flat_map (fun e => if ProxyChecker.appends e then [Thread e; Update] else [Thread e]) es.

End ProxyCheckerTable.

(* ================================================================== *)
(** * The text report: [_export_txt] and the window's [export_results] *)

(** [l.sort(key=lambda x: x.latency)].  The sort is stable and compares keys
    with [<] only; it is modelled by stable insertion, whose result is the
    sort's whenever [<] orders the keys at hand (no NaN among them). *)
Fixpoint insert_by_latency (r : ProxyResult) (sorted : list ProxyResult)
  : list ProxyResult :=
  match sorted with
  | [] => [r]
  | y :: rest =>
    if py_lt (latency y) (latency r) then y :: insert_by_latency r rest
    else r :: sorted
  end.

Definition sort_by_latency (l : list ProxyResult) : list ProxyResult :=
  fold_right insert_by_latency [] l.

(** What writing a report comes to: the text in the file, or an exception. *)
Inductive written : Type :=
| Written (text : pystr)
| RaisedZeroDivisionError
| RaisedKeyError.

(** [d[k]], then the rest of the writing. *)
Definition item (d : pydict) (k : pystr) (body : pynum -> written) : written :=
  match dict_get d k with
  | Some v => body v
  | None => RaisedKeyError
  end.

(** ["=" * 80] *)
Definition rule : pystr := repeat 61%N 80.

Definition success_line (r : ProxyResult) : pystr :=
  protocol r ++ u "://" ++ proxy r ++ u " - " ++ format_2f (latency r)
    ++ u "ms" ++ [NL].

Definition failed_line (r : ProxyResult) : pystr :=
  protocol r ++ u "://" ++ proxy r ++ u " - " ++ error r ++ [NL].

(** The two lists at the end of a report, the same text in both files. *)
Definition write_listing (results : list ProxyResult) (f : pystr) : pystr :=
  let f := f ++ u "【可用代理】" ++ [NL] in
  let success_proxies := filter is_success results in
  let success_proxies := sort_by_latency success_proxies in
  let f := fold_left (fun f r => f ++ success_line r) success_proxies f in
  let f := f ++ [NL] ++ u "【失败代理】" ++ [NL] in
  let failed_proxies := filter (fun r => negb (is_success r)) results in
  fold_left (fun f r => f ++ failed_line r) failed_proxies f.

(** The heading of a report, with the time [now] as it is printed. *)
Definition write_heading (now f : pystr) : pystr :=
  f ++ rule ++ [NL] ++ u "代理检测报告 - " ++ now ++ [NL] ++ rule ++ [NL; NL].

(** The text of the two lists, from the lists themselves. *)
Definition listing_text (working failing : list ProxyResult) : pystr :=
  u "【可用代理】" ++ [NL] ++ List.concat (map success_line working)
    ++ [NL] ++ u "【失败代理】" ++ [NL] ++ List.concat (map failed_line failing).

Section TextReport.
(** [str(x)] of a [float], which the program leaves to the interpreter. *)
Variable repr_float : float -> pystr.

(** [f"{x}"] *)
Definition py_str (x : pynum) : pystr :=
  match x with
  | PInt z => str_of_int z
  | PFloat f => repr_float f
  end.

(** [ProxyCheckerCLI._export_txt(f)] *)
Definition cli_export_txt (results : list ProxyResult) (now f : pystr) : written :=
  match ProxyCheckerCLI.get_statistics results with
  | ZeroDivisionError => RaisedZeroDivisionError
  | Ok stats =>
    let f := write_heading now f in
    let block :=
      match stats with
      | Some ((_ :: _) as stats) =>
        item stats (u "total") (fun total =>
        item stats (u "success") (fun success =>
        item stats (u "success_rate") (fun success_rate =>
        item stats (u "failed") (fun failed =>
        item stats (u "avg_latency") (fun avg_latency =>
        item stats (u "min_latency") (fun min_latency =>
        item stats (u "max_latency") (fun max_latency =>
        Written (f ++ u "【统计信息】" ++ [NL]
                   ++ u "总计: " ++ py_str total ++ [NL]
                   ++ u "成功: " ++ py_str success
                   ++ u " (" ++ format_2f success_rate ++ u "%)" ++ [NL]
                   ++ u "失败: " ++ py_str failed ++ [NL]
                   ++ u "平均延迟: " ++ format_2f avg_latency ++ u "ms" ++ [NL]
                   ++ u "最快延迟: " ++ format_2f min_latency ++ u "ms" ++ [NL]
                   ++ u "最慢延迟: " ++ format_2f max_latency ++ u "ms"
                   ++ [NL; NL]))))))))
      | _ => Written f
      end in
    match block with
    | Written f => Written (write_listing results f)
    | raised => raised
    end
  end.

(** [ProxyCheckerGUI.export_results], [chosen] telling whether the dialog gave
    a file name: what is written to that file, or [None] when no file is
    written at all. *)
Definition gui_export_results (results : list ProxyResult) (chosen : bool)
           (now : pystr) : option written :=
  match results with
  | [] => None
  | _ :: _ =>
    if negb chosen then None
    else
      Some
        match ProxyChecker.get_statistics results with
        | ZeroDivisionError => RaisedZeroDivisionError
        | Ok stats =>
          let f := write_heading now [] in
          let block :=
            match stats with
            | _ :: _ =>
              item stats (u "total") (fun total =>
              item stats (u "success") (fun success =>
              item stats (u "failed") (fun failed =>
              item stats (u "success_rate") (fun success_rate =>
              item stats (u "avg_latency") (fun avg_latency =>
              item stats (u "min_latency") (fun min_latency =>
              item stats (u "max_latency") (fun max_latency =>
              Written (f ++ u "【统计信息】" ++ [NL]
                         ++ u "总计: " ++ py_str total ++ [NL]
                         ++ u "成功: " ++ py_str success ++ [NL]
                         ++ u "失败: " ++ py_str failed ++ [NL]
                         ++ u "成功率: " ++ format_2f success_rate ++ u "%" ++ [NL]
                         ++ u "平均延迟: " ++ format_2f avg_latency ++ u "ms" ++ [NL]
                         ++ u "最快延迟: " ++ format_2f min_latency ++ u "ms" ++ [NL]
                         ++ u "最慢延迟: " ++ format_2f max_latency ++ u "ms"
                         ++ [NL; NL]))))))))
            | [] => Written f
            end in
          match block with
          | Written f => Written (write_listing results f)
          | raised => raised
          end
        end
  end.
End TextReport.

(** A line of the closing list of [main]. *)
Definition summary_line (r : ProxyResult) : pystr :=
  u "  " ++ protocol r ++ u "://" ++ proxy r ++ u " - " ++ format_2f (latency r)
    ++ u "ms".

(** The end of [main]: what it prints about the working proxies once the
    batch is over, one text per call of [print]. *)
Definition main_summary (results : list ProxyResult) : list pystr :=
  let success_proxies := filter is_success results in
  match success_proxies with
  | [] => []
  | _ :: _ =>
    let success_proxies := sort_by_latency success_proxies in
    [[NL] ++ u "可用代理列表:"]
      ++ map summary_line (firstn 10 success_proxies)
      ++ (if py_gt (len success_proxies) (PInt 10)
          then [u "  ... 还有 "
                  ++ str_of_int (Z.of_nat (List.length success_proxies) - 10)
                  ++ u " 个可用代理"]
          else [])
  end.

(** A latency that was measured: a [float] other than NaN, as
    [(time.time() - start_time) * 1000] is. *)
Definition measured (r : ProxyResult) : bool :=
  match latency r with
  | PFloat f => (f =? f)%float
  | PInt _ => false
  end.

(** [b] may come after [a] in a list sorted by latency: [b] is not faster. *)
Definition no_faster (a b : ProxyResult) : Prop :=
  py_lt (latency b) (latency a) = false.

(** What holds of the window all along a check over [proxies]. *)
Definition table_inv (proxies : list (pystr * pystr)) (w : ProxyCheckerTable.t)
  : Prop :=
  proxies <> [] /\
  ProxyCheckerTable.total w = Z.of_nat (List.length proxies) /\
  Forall (fun ct => snd ct = ProxyCheckerTable.total w)
         (ProxyCheckerTable.after_queue w) /\
  (List.length (ProxyCheckerTable.result_tree w)
   + List.length (ProxyCheckerTable.after_queue w)
   = List.length (ProxyChecker.self_results (ProxyCheckerTable.worker w)))%nat /\
  (forall row, In row (ProxyCheckerTable.result_tree w) ->
     exists res, In res (ProxyChecker.self_results (ProxyCheckerTable.worker w))
                 /\ row = ProxyCheckerTable.row_of res).

(** A text put in front of the first piece of a split. *)
Definition prepend_first (acc : pystr) (pieces : list pystr) : list pystr :=
  match pieces with
  | [] => [acc]
  | piece :: rest => (acc ++ piece) :: rest
  end.

(** The window at the start of a check over the three pairs, and where it is
    when the main loop only gets to the updates after the batch has finished,
    or right after each result. *)
Definition table_none : ProxyCheckerTable.t :=
  ProxyCheckerTable.mk (ProxyChecker.call_init []) 0 [] (PInt 0) [] [].

Definition table_start : ProxyCheckerTable.t :=
  Eval vm_compute in
    match ProxyCheckerTable.start_check three_proxies with
    | Some w => w
    | None => table_none
    end.

Definition late_updates : list ProxyCheckerTable.table_event :=
  map ProxyCheckerTable.Thread out_of_order
    ++ repeat ProxyCheckerTable.Update 3.

Definition late_updates_end : ProxyCheckerTable.t :=
  Eval vm_compute in
    match ProxyCheckerTable.table_run gui_checker 2 table_start late_updates with
    | Some (Ok w) => w
    | _ => table_none
    end.

Definition in_step_end : ProxyCheckerTable.t :=
  Eval vm_compute in
    match ProxyCheckerTable.table_run gui_checker 2 table_start
            (ProxyCheckerTable.in_step out_of_order) with
    | Some (Ok w) => w
    | _ => table_none
    end.





(* ================================================================== *)
(** * Sanity checks of the embedding on concrete values *)

Example utf8_timeout_message : u "连接超时" = [36830; 25509; 36229; 26102]%N.
Proof. reflexivity. Qed.

Example format_examples :
  format_2f (PFloat 0.125) = u "0.12" /\
  format_2f (PFloat 2.675) = u "2.67" /\
  format_2f (PFloat (-0.001)) = u "-0.00" /\
  format_2f (PInt 10000) = u "10000.00" /\
  format_2f (PFloat 123.456) = u "123.46" /\
  format_2f (PFloat 1e22) = u "10000000000000000000000.00".
Proof. vm_compute. repeat split. Qed.

Example parse_examples :
  parse_proxies (u "socks5://user:pw@10.0.0.1:1080") = [(u "user:pw@10.0.0.1:1080", u "socks5")] /\
  parse_proxies (u "10.0.0.1:8080") = [(u "10.0.0.1:8080", u "http")] /\
  parse_proxies (u "# note") = [] /\
  parse_proxies (u "https://a@") = [(u "a@", u "https")] /\
  parse_proxies (u "1.2.3.4:80 trailing, text  ") = [(u "1.2.3.4:80 trailing, text", u "http")] /\
  parse_proxies (u "ftp://u@1.2.3.4:80") = [(u "ftp://u@1.2.3.4:80", u "http")] /\
  parse_proxies (u "http://") = [].
Proof. vm_compute. repeat split. Qed.

(* ================================================================== *)
(** * Strings and numbers: basic facts *)

Lemma str_eqb_eq (a b : pystr) : str_eqb a b = true <-> a = b.
Proof.
  revert b; induction a as [|x a IH]; intros [|y b]; simpl; split;
    try congruence; try reflexivity.
  - intros H. apply andb_true_iff in H as [Hx Hab].
    apply N.eqb_eq in Hx. apply IH in Hab. congruence.
  - intros H. injection H as -> ->. rewrite N.eqb_refl. now apply IH.
Qed.

Lemma str_eqb_refl (a : pystr) : str_eqb a a = true.
Proof. now apply str_eqb_eq. Qed.

Lemma float_of_Z_1000 : float_of_Z 1000 = 1000%float.
Proof. reflexivity. Qed.

Lemma float_of_Z_100 : float_of_Z 100 = 100%float.
Proof. reflexivity. Qed.

Lemma elapsed_ms_float (env : probe_env) :
  elapsed_ms env
  = PFloat ((time_at_response env - time_at_start env) * 1000)%float.
Proof. unfold elapsed_ms. simpl. now rewrite float_of_Z_1000. Qed.

(* ================================================================== *)
(** * One probe: [check_proxy] *)

(** C5. A probe that gets an HTTP response: status 200 gives [success] with
    the measured elapsed time [(time.time() - start_time) * 1000] and an empty
    error; any other status gives [failed] with the same measured latency and
    the error ["HTTP {status}"].  Both checkers. *)
Theorem check_proxy_http_response :
  forall (env : probe_env) (proxy protocol : pystr) (code : Z),
    elapsed_ms env
    = PFloat ((time_at_response env - time_at_start env) * 1000)%float /\
    (forall self : ProxyChecker.t,
        http_get env (ProxyChecker.request_of self proxy protocol) = Response code ->
        ProxyChecker.check_proxy self env proxy protocol
        = if (code =? 200)%Z
          then mkProxyResult proxy protocol (u "success") (elapsed_ms env) (u "")
          else mkProxyResult proxy protocol (u "failed") (elapsed_ms env)
                             (u "HTTP " ++ str_of_int code)) /\
    (forall (lower : pystr -> pystr) (self : ProxyCheckerCLI.t),
        http_get env (ProxyCheckerCLI.request_of lower self proxy protocol)
        = Response code ->
        ProxyCheckerCLI.check_proxy lower self env proxy protocol
        = if (code =? 200)%Z
          then mkProxyResult proxy protocol (u "success") (elapsed_ms env) (u "")
          else mkProxyResult proxy protocol (u "failed") (elapsed_ms env)
                             (u "HTTP " ++ str_of_int code)).
Proof.
  intros env proxy protocol code. split; [apply elapsed_ms_float|]. split.
  - intros self H. unfold ProxyChecker.check_proxy. now rewrite H.
  - intros lower self H. unfold ProxyCheckerCLI.check_proxy. rewrite H.
    now destruct (str_eqb (lower protocol) (u "socks5")).
Qed.

Lemma check_proxy_http_response_witness :
  ProxyChecker.check_proxy gui_checker (response_env 404) (u "10.0.0.1:8080") (u "http")
  = mkProxyResult (u "10.0.0.1:8080") (u "http") (u "failed") (PFloat 250) (u "HTTP 404")
  /\ ProxyCheckerCLI.check_proxy identity_lower cli_checker (response_env 200)
       (u "10.0.0.1:1080") (u "socks5")
     = mkProxyResult (u "10.0.0.1:1080") (u "socks5") (u "success") (PFloat 250) (u "").
Proof.
  split.
  - exact (proj1 (proj2 (check_proxy_http_response (response_env 404)
             (u "10.0.0.1:8080") (u "http") 404)) gui_checker eq_refl).
  - exact (proj2 (proj2 (check_proxy_http_response (response_env 200)
             (u "10.0.0.1:1080") (u "socks5") 200)) identity_lower cli_checker eq_refl).
Defined.

(** C4. A probe whose request runs into the timeout ([requests.exceptions.Timeout]
    in the GUI checker, [asyncio.TimeoutError] in the CLI one): status
    [timeout], latency the configured [timeout * 1000] and not a measured
    time, and the fixed message. *)
Theorem check_proxy_timeout :
  forall (env : probe_env) (proxy protocol : pystr) (e : exception),
    (forall self : ProxyChecker.t,
        http_get env (ProxyChecker.request_of self proxy protocol) = Raises e ->
        isinstance e requests_Timeout = true ->
        ProxyChecker.check_proxy self env proxy protocol
        = mkProxyResult proxy protocol (u "timeout")
            (PInt (ProxyChecker.timeout self * 1000)) (u "连接超时")) /\
    (forall (lower : pystr -> pystr) (self : ProxyCheckerCLI.t),
        http_get env (ProxyCheckerCLI.request_of lower self proxy protocol) = Raises e ->
        isinstance e asyncio_TimeoutError = true ->
        ProxyCheckerCLI.check_proxy lower self env proxy protocol
        = mkProxyResult proxy protocol (u "timeout")
            (PInt (ProxyCheckerCLI.timeout self * 1000)) (u "连接超时")).
Proof.
  intros env proxy protocol e. split.
  - intros self H Ht. unfold ProxyChecker.check_proxy. now rewrite H, Ht.
  - intros lower self H Ht. unfold ProxyCheckerCLI.check_proxy. now rewrite H, Ht.
Qed.

Lemma check_proxy_timeout_witness :
  ProxyChecker.check_proxy gui_checker (raising_env timeout_exc) (u "10.0.0.1:8080") (u "http")
  = mkProxyResult (u "10.0.0.1:8080") (u "http") (u "timeout") (PInt 2000) (u "连接超时")
  /\ ProxyCheckerCLI.check_proxy identity_lower cli_checker (raising_env timeout_exc)
       (u "10.0.0.1:8080") (u "http")
     = mkProxyResult (u "10.0.0.1:8080") (u "http") (u "timeout") (PInt 2000) (u "连接超时").
Proof.
  split.
  - exact (proj1 (check_proxy_timeout (raising_env timeout_exc)
             (u "10.0.0.1:8080") (u "http") timeout_exc) gui_checker eq_refl eq_refl).
  - exact (proj2 (check_proxy_timeout (raising_env timeout_exc)
             (u "10.0.0.1:8080") (u "http") timeout_exc)
             identity_lower cli_checker eq_refl eq_refl).
Defined.

(** C3, counterexample.  A proxy error in the GUI checker gives an error text
    that is not the message cut at 50 characters (it carries a prefix), and a
    failure in the CLI checker gives an error text longer than 50 characters. *)
Lemma failure_detail_counterexample :
  let r := ProxyChecker.check_proxy gui_checker (raising_env proxy_error_exc)
             (u "10.0.0.1:8080") (u "http") in
  let r' := ProxyCheckerCLI.check_proxy identity_lower cli_checker
              (raising_env long_exc) (u "10.0.0.1:8080") (u "http") in
  status r = u "failed" /\
  error r = u "代理错误: Cannot connect to proxy." /\
  error r <> firstn 50 (str_of_exc proxy_error_exc) /\
  status r' = u "failed" /\
  List.length (error r') = 70%nat /\
  error r' <> firstn 50 (str_of_exc long_exc).
Proof.
  vm_compute. repeat split; discriminate.
Qed.

(** C3, amended.  A failure that is not a timeout is turned into a result:
    status [failed], latency 0.  In the GUI checker the error text is the
    message cut at 50 characters, behind the prefix ["代理错误: "] when the
    failure is a [ProxyError], so at most 56 characters.  In the CLI checker
    the error text starts with the first 50 characters of the message. *)
Theorem check_proxy_failure :
  forall (env : probe_env) (proxy protocol : pystr) (e : exception),
    (forall self : ProxyChecker.t,
        http_get env (ProxyChecker.request_of self proxy protocol) = Raises e ->
        isinstance e requests_Timeout = false ->
        let r := ProxyChecker.check_proxy self env proxy protocol in
        key r = (proxy, protocol) /\
        status r = u "failed" /\ latency r = PInt 0 /\
        error r = (if isinstance e requests_ProxyError then u "代理错误: " else [])
                    ++ firstn 50 (str_of_exc e) /\
        (List.length (error r) <= 56)%nat /\
        (isinstance e requests_ProxyError = false -> (List.length (error r) <= 50)%nat)) /\
    (forall (lower : pystr -> pystr) (self : ProxyCheckerCLI.t),
        http_get env (ProxyCheckerCLI.request_of lower self proxy protocol) = Raises e ->
        isinstance e asyncio_TimeoutError = false ->
        let r := ProxyCheckerCLI.check_proxy lower self env proxy protocol in
        key r = (proxy, protocol) /\
        status r = u "failed" /\ latency r = PInt 0 /\
        firstn 50 (error r) = firstn 50 (str_of_exc e)).
Proof.
  intros env proxy protocol e. split.
  - intros self H Ht r. subst r. unfold ProxyChecker.check_proxy.
    rewrite H, Ht.
    assert (Hlen : (List.length (firstn 50 (str_of_exc e)) <= 50)%nat)
      by apply firstn_le_length.
    destruct (isinstance e requests_ProxyError); repeat split; try reflexivity.
    + change (List.length (u "代理错误: " ++ firstn 50 (str_of_exc e)) <= 56)%nat.
      rewrite length_app. change (List.length (u "代理错误: ")) with 6%nat. lia.
    + discriminate.
    + change (List.length (firstn 50 (str_of_exc e)) <= 56)%nat. lia.
    + intros _. exact Hlen.
  - intros lower self H Ht r. subst r. unfold ProxyCheckerCLI.check_proxy.
    rewrite H, Ht. repeat split.
Qed.

Lemma check_proxy_failure_witness :
  error (ProxyChecker.check_proxy gui_checker (raising_env long_exc)
           (u "10.0.0.1:8080") (u "http"))
  = [] ++ firstn 50 (str_of_exc long_exc).
Proof.
  exact (proj1 (proj2 (proj2 (proj2 (proj1 (check_proxy_failure (raising_env long_exc)
           (u "10.0.0.1:8080") (u "http") long_exc) gui_checker eq_refl eq_refl))))).
Defined.

(* ================================================================== *)
(** * Statistics: [get_statistics] *)

(** C2, counterexample.  On no results the GUI checker returns the empty dict
    and the CLI checker [None]: there is no [total] to read, let alone a 0. *)
Lemma empty_statistics_counterexample :
  ProxyChecker.get_statistics [] = Ok [] /\
  ProxyCheckerCLI.get_statistics [] = Ok None /\
  ~ (exists d, ProxyChecker.get_statistics [] = Ok d
               /\ dict_get d (u "total") = Some (PInt 0)
               /\ dict_get d (u "success_rate") = Some (PInt 0)) /\
  ~ (exists d, ProxyCheckerCLI.get_statistics [] = Ok (Some d)).
Proof.
  repeat split.
  - intros [d [H [Ht _]]]. injection H as <-. discriminate Ht.
  - intros [d H]. discriminate H.
Qed.

(** C2, amended.  On no results [get_statistics] returns, without a division
    error, a value that holds no statistics: the empty dict, with no key at
    all, in the GUI checker, and [None] in the CLI checker. *)
Theorem empty_statistics :
  ProxyChecker.get_statistics [] = Ok [] /\
  (forall k : pystr, dict_get [] k = None) /\
  ProxyCheckerCLI.get_statistics [] = Ok None /\
  ProxyChecker.get_statistics [] <> ZeroDivisionError /\
  ProxyCheckerCLI.get_statistics [] <> ZeroDivisionError.
Proof.
  repeat split; discriminate.
Qed.

Lemma py_min_in (xs : list pynum) (d : pynum) :
  xs <> [] -> In (py_min xs d) xs.
Proof.
  destruct xs as [|x xs]; [congruence|]. intros _. simpl.
  assert (H : forall ys b, In b (x :: xs) -> incl ys (x :: xs) ->
    In (fold_left (fun best y => if py_lt y best then y else best) ys b) (x :: xs)).
  { induction ys as [|y ys IH]; intros b Hb Hys; simpl; [exact Hb|].
    apply IH.
    - destruct (py_lt y b); [apply Hys; now left | exact Hb].
    - intros z Hz. apply Hys. now right. }
  apply H; [now left | intros z Hz; now right].
Qed.

Lemma py_max_in (xs : list pynum) (d : pynum) :
  xs <> [] -> In (py_max xs d) xs.
Proof.
  destruct xs as [|x xs]; [congruence|]. intros _. simpl.
  assert (H : forall ys b, In b (x :: xs) -> incl ys (x :: xs) ->
    In (fold_left (fun best y => if py_gt y best then y else best) ys b) (x :: xs)).
  { induction ys as [|y ys IH]; intros b Hb Hys; simpl; [exact Hb|].
    apply IH.
    - destruct (py_gt y b); [apply Hys; now left | exact Hb].
    - intros z Hz. apply Hys. now right. }
  apply H; [now left | intros z Hz; now right].
Qed.

(** The dict [get_statistics] builds, from the values of its seven entries. *)
Lemma get_statistics_nonempty (r : ProxyResult) (rs : list ProxyResult) :
  let results := r :: rs in
  let success := filter is_success results in
  let lat := map latency success in
  let n := Z.of_nat (List.length results) in
  let sc := Z.of_nat (List.length success) in
  let d := [(u "total", PInt n);
            (u "success", PInt sc);
            (u "failed", PInt (n - sc));
            (u "success_rate", PFloat (float_of_Z sc / float_of_Z n * 100)%float);
            (u "avg_latency",
             if (sc =? 0)%Z then PInt 0
             else PFloat (to_float (py_sum lat) / float_of_Z sc)%float);
            (u "min_latency", py_min lat (PInt 0));
            (u "max_latency", py_max lat (PInt 0))] in
  ProxyChecker.get_statistics results = Ok d /\
  ProxyCheckerCLI.get_statistics results = Ok (Some d).
Proof.
  intros results success lat n sc d.
  assert (Hn : (0 <? n)%Z = true) by (apply Z.ltb_lt; subst n results; simpl List.length; lia).
  assert (Hn0 : (n =? 0)%Z = false) by (apply Z.eqb_neq; apply Z.ltb_lt in Hn; lia).
  assert (Hsc : (0 <? sc)%Z = negb (sc =? 0)%Z).
  { subst sc. destruct (List.length success); [reflexivity|].
    transitivity true; [apply Z.ltb_lt; lia|].
    symmetry. apply negb_true_iff. apply Z.eqb_neq. lia. }
  unfold ProxyChecker.get_statistics, ProxyCheckerCLI.get_statistics.
  fold results. unfold results at 1 3.
  fold success. fold lat.
  unfold py_gt, len, py_truediv, py_lt, is_zero.
  fold n. fold sc. rewrite Hn, Hn0, Hsc.
  destruct (sc =? 0)%Z; simpl; rewrite float_of_Z_100; split; reflexivity.
Qed.

Lemma filter_split_length {A : Type} (f : A -> bool) (l : list A) :
  (List.length (filter f l) + List.length (filter (fun x => negb (f x)) l)
   = List.length l)%nat.
Proof.
  induction l as [|x l IH]; simpl; [reflexivity|].
  destruct (f x); simpl; lia.
Qed.

Lemma fold_add_floats (fs : list float) (a : float) :
  fold_left py_add (map PFloat fs) (PFloat a) = PFloat (fold_left PrimFloat.add fs a).
Proof.
  revert a. induction fs as [|x fs IH]; intros a; simpl; [reflexivity|].
  apply IH.
Qed.

Lemma py_sum_floats (fs : list float) :
  fs <> [] -> py_sum (map PFloat fs) = PFloat (fold_left PrimFloat.add fs 0%float).
Proof.
  destruct fs as [|x fs]; [congruence|]. intros _.
  unfold py_sum. simpl.
  change (float_of_Z 0) with 0%float. apply fold_add_floats.
Qed.

(** C6. On a non-empty list of results [get_statistics] returns, without
    error, the dict whose [success_rate] is [success_count / total * 100] in
    double arithmetic (exactly 70.0 for 7 successes out of 10), whose [failed]
    is [total - success_count], the number of results that are not a success
    (timeouts included), and whose average, minimum and maximum latency are
    taken over the successful results only: the average is the sum of their
    latencies divided by their number, for [float] latencies the doubles
    added one after the other from zero; the minimum and the maximum are
    latencies of successful results; and all three are the [int] 0 when there
    is no success.  Both checkers. *)
Theorem statistics_of_results :
  forall (r : ProxyResult) (rs : list ProxyResult),
    let results := r :: rs in
    let success := filter is_success results in
    let lat := map latency success in
    let n := Z.of_nat (List.length results) in
    let sc := Z.of_nat (List.length success) in
    exists d : pydict,
      ProxyChecker.get_statistics results = Ok d /\
      ProxyCheckerCLI.get_statistics results = Ok (Some d) /\
      dict_get d (u "total") = Some (PInt n) /\
      dict_get d (u "success") = Some (PInt sc) /\
      dict_get d (u "failed") = Some (PInt (n - sc)) /\
      (n - sc)%Z
      = Z.of_nat (List.length (filter (fun x => negb (is_success x)) results)) /\
      dict_get d (u "success_rate")
      = Some (PFloat (float_of_Z sc / float_of_Z n * 100)%float) /\
      (List.length results = 10%nat -> List.length success = 7%nat ->
       dict_get d (u "success_rate") = Some (PFloat 70)) /\
      dict_get d (u "avg_latency")
      = Some (if (sc =? 0)%Z then PInt 0
              else PFloat (to_float (py_sum lat) / float_of_Z sc)%float) /\
      (forall fs : list float,
          lat = map PFloat fs -> fs <> [] ->
          dict_get d (u "avg_latency") = Some (PFloat (mean_latency fs))) /\
      dict_get d (u "min_latency") = Some (py_min lat (PInt 0)) /\
      dict_get d (u "max_latency") = Some (py_max lat (PInt 0)) /\
      (success <> [] -> In (py_min lat (PInt 0)) lat /\ In (py_max lat (PInt 0)) lat) /\
      (success = [] ->
       dict_get d (u "avg_latency") = Some (PInt 0) /\
       dict_get d (u "min_latency") = Some (PInt 0) /\
       dict_get d (u "max_latency") = Some (PInt 0)).
Proof.
  intros r rs results success lat n sc.
  destruct (get_statistics_nonempty r rs) as [Hgui Hcli].
  fold results in Hgui, Hcli. fold success in Hgui, Hcli.
  fold lat in Hgui, Hcli. fold n in Hgui, Hcli. fold sc in Hgui, Hcli.
  eexists. split; [exact Hgui|]. split; [exact Hcli|].
  repeat match goal with |- _ /\ _ => split end; try reflexivity.
  - pose proof (filter_split_length is_success results) as H.
    fold success in H. subst n sc. lia.
  - intros H10 H7. subst n sc. rewrite H10, H7. reflexivity.
  - intros fs Hfs Hne.
    assert (Hlen : List.length success = List.length fs).
    { rewrite <- (length_map latency success). fold lat.
      now rewrite Hfs, length_map. }
    change (dict_get
              [(u "total", PInt n); (u "success", PInt sc);
               (u "failed", PInt (n - sc));
               (u "success_rate", PFloat (float_of_Z sc / float_of_Z n * 100)%float);
               (u "avg_latency",
                if (sc =? 0)%Z then PInt 0
                else PFloat (to_float (py_sum lat) / float_of_Z sc)%float);
               (u "min_latency", py_min lat (PInt 0));
               (u "max_latency", py_max lat (PInt 0))] (u "avg_latency"))
      with (Some (if (sc =? 0)%Z then PInt 0
                  else PFloat (to_float (py_sum lat) / float_of_Z sc)%float)).
    replace (sc =? 0)%Z with false.
    + unfold mean_latency. subst sc. rewrite Hlen, Hfs, (py_sum_floats Hne).
      reflexivity.
    + symmetry. apply Z.eqb_neq. subst sc. rewrite Hlen.
      destruct fs; [congruence | simpl; lia].
  - intros Hne. assert (lat <> []).
    { subst lat. destruct success; [congruence|discriminate]. }
    split; [now apply py_min_in | now apply py_max_in].
  - intros He. subst sc lat. rewrite He. repeat split.
Qed.

Lemma statistics_of_results_witness :
  exists d : pydict,
    ProxyChecker.get_statistics ten_results = Ok d /\
    ProxyCheckerCLI.get_statistics ten_results = Ok (Some d) /\
    dict_get d (u "failed") = Some (PInt 3) /\
    dict_get d (u "success_rate") = Some (PFloat 70) /\
    dict_get d (u "avg_latency") = Some (PFloat 126.80357142857143) /\
    dict_get d (u "min_latency") = Some (PFloat 64) /\
    dict_get d (u "max_latency") = Some (PFloat 300.125).
Proof.
  destruct (statistics_of_results (result_of (u "success") 120.5) (tl ten_results))
    as [d [Hgui [Hcli [_ [_ [Hf [_ [_ [H70 [_ [Hmean [Hmin [Hmax _]]]]]]]]]]]]].
  exists d. split; [exact Hgui|]. split; [exact Hcli|]. split; [exact Hf|].
  split; [exact (H70 eq_refl eq_refl)|].
  split; [|split; [exact Hmin | exact Hmax]].
  exact (Hmean [120.5; 80.25; 95; 300.125; 64; 77.75; 150]%float eq_refl
               ltac:(discriminate)).
Defined.

(* ================================================================== *)
(** * The gate of a batch run: its runs *)

Lemma remove_nth_perm {A : Type} (i : nat) (l : list A) (x : A) :
  nth_error l i = Some x -> Permutation (x :: remove_nth i l) l.
Proof.
  revert i; induction l as [|y l IH]; intros [|i] H; simpl in *; try discriminate.
  - injection H as ->. reflexivity.
  - rewrite perm_swap. constructor. now apply IH.
Qed.

Lemma remove_nth_length {A : Type} (i : nat) (l : list A) (x : A) :
  nth_error l i = Some x -> S (List.length (remove_nth i l)) = List.length l.
Proof.
  revert i; induction l as [|y l IH]; intros [|i] H; simpl in *; try discriminate.
  - reflexivity.
  - f_equal. now apply IH.
Qed.

Lemma finished_true (b : batch) :
  finished b = true <-> queued b = [] /\ in_flight b = [].
Proof.
  unfold finished. destruct (queued b), (in_flight b); split;
    intros H; try discriminate; try (destruct H; discriminate); auto.
Qed.

Section BatchFacts.
Variable probe : probe_env -> pystr -> pystr -> ProxyResult.
Variable concurrency : Z.
Hypothesis probe_key : forall env p q, key (probe env p q) = (p, q).










End BatchFacts.



Section Probed.
Variable probe : probe_env -> pystr -> pystr -> ProxyResult.
Variable concurrency : Z.
Hypothesis probe_key : forall env p q, key (probe env p q) = (p, q).

End Probed.

Lemma gui_probe_key (self : ProxyChecker.t) (env : probe_env) (p q : pystr) :
  key (ProxyChecker.check_proxy self env p q) = (p, q).
Proof.
  unfold ProxyChecker.check_proxy.
  destruct (http_get env _) as [code|e].
  - destruct (code =? 200)%Z; reflexivity.
  - destruct (isinstance e requests_Timeout); [reflexivity|].
    destruct (isinstance e requests_ProxyError); reflexivity.
Qed.

Lemma cli_probe_key (lower : pystr -> pystr) (self : ProxyCheckerCLI.t)
      (env : probe_env) (p q : pystr) :
  key (ProxyCheckerCLI.check_proxy lower self env p q) = (p, q).
Proof.
  unfold ProxyCheckerCLI.check_proxy.
  destruct (http_get env _) as [code|e].
  - destruct (str_eqb (lower q) (u "socks5")), (code =? 200)%Z; reflexivity.
  - destruct (isinstance e asyncio_TimeoutError); reflexivity.
Qed.

(* ================================================================== *)
(** * The batch of the window's checker *)


(** What one step of the pool does to the pairs, to the events left, to the
    probes running and to the worker threads' takes. *)
Lemma pool_fire_facts (self : ProxyChecker.t) (concurrency : Z)
      (p p' : ProxyChecker.thread_pool) (e : ProxyChecker.pool_event)
      (more : list ProxyResult) (done : list ProxyResult) :
  ProxyChecker.pool_fire self concurrency p e = Some (p', more) ->
  Permutation (call_pairs (ProxyChecker.mkCall p' (done ++ more)))
              (call_pairs (ProxyChecker.mkCall p done)) /\
  S (pool_work p') = pool_work p /\
  (if ProxyChecker.appends e then exists x, more = [x] else more = []) /\
  ((Z.of_nat (List.length (ProxyChecker.running p)) <= Z.max 0 concurrency)%Z ->
   (Z.of_nat (List.length (ProxyChecker.running p')) <= Z.max 0 concurrency)%Z) /\
  ((match e with ProxyChecker.Take => 1 | _ => 0 end)
   + List.length (ProxyChecker.pending p') = List.length (ProxyChecker.pending p))%nat /\
  (1 <= concurrency)%Z.
Proof.
  unfold ProxyChecker.pool_fire, call_pairs, pool_work.
  destruct (concurrency <? 1)%Z eqn:Hc; [discriminate|]. apply Z.ltb_ge in Hc.
  destruct e as [|i env| |k]; simpl.
  - destruct (ProxyChecker.pending p) as [|[proxy protocol] rest]; [discriminate|].
    destruct (Z.of_nat (List.length (ProxyChecker.running p)) <? concurrency)%Z eqn:Hlt;
      [|discriminate].
    apply Z.ltb_lt in Hlt.
    intros H; injection H as <- <-. simpl.
    rewrite app_nil_r, map_app, length_app. simpl.
    split; [|split; [|split; [|split; [|split]]]]; try lia; try reflexivity.
    rewrite <- !app_assoc. reflexivity.
  - destruct (nth_error (ProxyChecker.running p) i) as [[[proxy protocol] req]|] eqn:Hn;
      [|discriminate].
    intros H; injection H as <- <-. simpl.
    pose proof (remove_nth_length _ _ Hn) as Hlen.
    pose proof (remove_nth_perm _ _ Hn) as Hperm.
    apply (Permutation_map fst) in Hperm. simpl in Hperm.
    rewrite app_nil_r.
    split; [|split; [|split; [|split; [|split]]]];
      try (destruct (ProxyChecker.entered p); rewrite ?length_app; simpl; lia);
      try reflexivity.
    apply Permutation_app_head.
    rewrite <- Hperm.
    destruct (ProxyChecker.entered p); rewrite map_app; simpl;
      rewrite gui_probe_key, <- !app_assoc; simpl.
    + apply Permutation_app_head, Permutation_app_head. reflexivity.
    + apply Permutation_app_head. apply Permutation_middle.
  - destruct (ProxyChecker.entered p); [discriminate|].
    intros H; injection H as <- <-. simpl. rewrite app_nil_r.
    split; [|split; [|split; [|split; [|split]]]]; try lia; reflexivity.
  - destruct (ProxyChecker.entered p); [|discriminate].
    destruct (ProxyChecker.finished_set p) as [|f fs] eqn:Hfs.
    + destruct k as [|k]; [|discriminate].
      destruct (ProxyChecker.finished_futures p) as [|r rest]; [discriminate|].
      intros H; injection H as <- <-. simpl.
      split; [|split; [|split; [|split; [|split]]]]; eauto; try lia.
      rewrite map_app, <- app_assoc. reflexivity.
    + destruct (nth_error (f :: fs) k) as [r|] eqn:Hn; [|discriminate].
      intros H; injection H as <- <-. simpl.
      pose proof (remove_nth_length _ _ Hn) as Hlen.
      pose proof (remove_nth_perm _ _ Hn) as Hperm.
      apply (Permutation_map key) in Hperm. simpl in Hperm.
      simpl in Hlen.
      split; [|split; [|split; [|split; [|split]]]]; eauto; try lia.
      rewrite map_app, <- app_assoc. apply Permutation_app_head. simpl.
      exact (Permutation_app_tail _ Hperm).
Qed.

Section CallFacts.
Variable self : ProxyChecker.t.
Variable concurrency : Z.

Lemma call_fire_facts (b b' : ProxyChecker.call) (e : ProxyChecker.pool_event) :
  ProxyChecker.call_fire self concurrency b e = Some b' ->
  Permutation (call_pairs b') (call_pairs b) /\
  S (pool_work (ProxyChecker.pool b')) = pool_work (ProxyChecker.pool b) /\
  (if ProxyChecker.appends e
   then exists x, ProxyChecker.self_results b' = ProxyChecker.self_results b ++ [x]
   else ProxyChecker.self_results b' = ProxyChecker.self_results b) /\
  ((Z.of_nat (List.length (ProxyChecker.running (ProxyChecker.pool b)))
    <= Z.max 0 concurrency)%Z ->
   (Z.of_nat (List.length (ProxyChecker.running (ProxyChecker.pool b')))
    <= Z.max 0 concurrency)%Z) /\
  ((match e with ProxyChecker.Take => 1 | _ => 0 end)
   + List.length (ProxyChecker.pending (ProxyChecker.pool b'))
   = List.length (ProxyChecker.pending (ProxyChecker.pool b)))%nat.
Proof.
  unfold ProxyChecker.call_fire.
  destruct (ProxyChecker.pool_fire self concurrency (ProxyChecker.pool b) e)
    as [[p more]|] eqn:Hf; [|discriminate].
  intros H; injection H as <-.
  destruct (pool_fire_facts _ _ _ _ (ProxyChecker.self_results b) Hf)
    as (Hp & Hw & Hm & Hc & Ht & _).
  destruct b as [p0 done]. simpl in *.
  split; [exact Hp|]. split; [exact Hw|]. split; [|split; [exact Hc|exact Ht]].
  destruct (ProxyChecker.appends e).
  - destruct Hm as [x ->]. eauto.
  - subst more. now rewrite app_nil_r.
Qed.

Lemma call_run_app (b : ProxyChecker.call) (es1 es2 : list ProxyChecker.pool_event) :
  ProxyChecker.call_run self concurrency b (es1 ++ es2)
  = match ProxyChecker.call_run self concurrency b es1 with
    | Some b1 => ProxyChecker.call_run self concurrency b1 es2
    | None => None
    end.
Proof.
  revert b; induction es1 as [|e es1 IH]; intros b; simpl; [reflexivity|].
  destruct (ProxyChecker.call_fire self concurrency b e); [apply IH | reflexivity].
Qed.




End CallFacts.


Section CallProbed.
Variable self : ProxyChecker.t.
Variable concurrency : Z.

End CallProbed.



(* ================================================================== *)
(** * The stop button *)

Lemma gui_run_app (es1 es2 : list ProxyCheckerGUI.gui_event) (g : ProxyCheckerGUI.t) :
  ProxyCheckerGUI.gui_run g (es1 ++ es2)
  = match ProxyCheckerGUI.gui_run g es1 with
    | Some g1 => ProxyCheckerGUI.gui_run g1 es2
    | None => None
    end.
Proof.
  revert g; induction es1 as [|e es1 IH]; intros g; simpl; [reflexivity|].
  destruct (ProxyCheckerGUI.gui_fire g e); [apply IH | reflexivity].
Qed.








(** A check stopped after its first result and a second check started under
    it: the list of the checker is emptied, and the two results the first
    batch still gets are all it holds in the end. *)
Example restart_empties_results :
  ProxyCheckerGUI.gui_run ProxyCheckerGUI.window restart_trace
  = Some restart_trace_end /\
  map key (ProxyCheckerGUI.checker_results restart_trace_end) = tl three_proxies /\
  List.length (ProxyCheckerGUI.threads restart_trace_end) = 2%nat.
Proof.
  repeat split.
Qed.



(* ================================================================== *)
(** * The matcher against the declarative reading of a pattern *)

Lemma startswith_app (s l : pystr) :
  startswith s l = true <-> exists t, s = l ++ t.
Proof.
  revert s; induction l as [|y l IH]; intros s; simpl.
  - split; [intros _; now exists s | now destruct s].
  - destruct s as [|x s]; simpl.
    + split; [discriminate | intros [t H]; discriminate].
    + rewrite andb_true_iff, N.eqb_eq, IH. split.
      * intros [-> [t ->]]. eauto.
      * intros [t H]. injection H as -> ->. eauto.
Qed.

Lemma skipn_app_exact (l t : pystr) : skipn (List.length l) (l ++ t) = t.
Proof. induction l; simpl; auto. Qed.

Lemma firstn_app_exact (l t : pystr) :
  firstn (List.length (l ++ t) - List.length t) (l ++ t) = l.
Proof.
  rewrite length_app. replace (List.length l + List.length t - List.length t)%nat
    with (List.length l) by lia.
  induction l; simpl; [now destruct t | congruence].
Qed.

Section MatcherFacts.
Variable R : Type.

Lemma plus_k_sound (cls : N -> bool) (k : pystr -> option R) (x : R) :
  forall s, plus_k cls s k = Some x ->
  exists a b, s = a ++ b /\ lang (Plus cls) a /\ k b = Some x.
Proof.
  induction s as [|c s IH]; simpl; [discriminate|].
  destruct (cls c) eqn:Hc; [|discriminate].
  destruct (plus_k cls s k) as [y|] eqn:Hp.
  - intros H; injection H as ->.
    destruct (IH eq_refl) as [a [b [-> [Ha Hk]]]].
    exists (c :: a), b. repeat split; auto.
    inversion Ha; subst. constructor; auto.
  - intros H. exists [c], s. repeat split; auto. constructor; auto.
Qed.

Lemma plus_k_complete (cls : N -> bool) (k : pystr -> option R) (b : pystr) :
  k b <> None ->
  forall a, Forall (fun x => cls x = true) a -> a <> [] ->
  plus_k cls (a ++ b) k <> None.
Proof.
  intros Hk. induction a as [|c a IH]; intros Ha Hne; [congruence|].
  inversion Ha as [|? ? Hc Ha']; subst. simpl. rewrite Hc.
  destruct a as [|c' a].
  - simpl. destruct (plus_k cls b k); [discriminate | exact Hk].
  - specialize (IH Ha' ltac:(discriminate)).
    destruct (plus_k cls ((c' :: a) ++ b) k); [discriminate | congruence].
Qed.

(** Whatever the matcher finds is a split of the text into a part the
    pattern matches and a rest the continuation accepts. *)
Lemma match_k_sound (r : regex) :
  forall (s : pystr) (g : groups) (k : pystr -> groups -> option R) (x : R),
    match_k r s g k = Some x ->
    exists a b g', s = a ++ b /\ lang r a /\ k b g' = Some x.
Proof.
  induction r as [l|cls|r1 IH1 r2 IH2|r1 IH1 r2 IH2|r IH|i r IH];
    intros s g k x; simpl.
  - destruct (startswith s l) eqn:Hs; [|discriminate].
    apply startswith_app in Hs as [t ->]. rewrite skipn_app_exact.
    intros H. exists l, t, g. repeat split; auto. constructor.
  - intros H. apply plus_k_sound in H as [a [b [-> [Ha Hk]]]].
    exists a, b, g. auto.
  - destruct (match_k r1 s g k) as [y|] eqn:H1.
    + intros H; injection H as ->.
      destruct (IH1 _ _ _ _ H1) as [a [b [g' [-> [Ha Hk]]]]].
      exists a, b, g'. repeat split; auto. now apply lang_alt_l.
    + intros H. destruct (IH2 _ _ _ _ H) as [a [b [g' [-> [Ha Hk]]]]].
      exists a, b, g'. repeat split; auto. now apply lang_alt_r.
  - intros H. destruct (IH1 _ _ _ _ H) as [a1 [b1 [g1 [-> [Ha1 Hk1]]]]].
    destruct (IH2 _ _ _ _ Hk1) as [a2 [b2 [g2 [-> [Ha2 Hk2]]]]].
    exists (a1 ++ a2), b2, g2. rewrite <- app_assoc. repeat split; auto.
    now constructor.
  - destruct (match_k r s g k) as [y|] eqn:H1.
    + intros H; injection H as ->.
      destruct (IH _ _ _ _ H1) as [a [b [g' [-> [Ha Hk]]]]].
      exists a, b, g'. repeat split; auto. now apply lang_opt_some.
    + intros H. exists [], s, g. repeat split; auto. constructor.
  - intros H. destruct (IH _ _ _ _ H) as [a [b [g' [-> [Ha Hk]]]]].
    eexists a, b, _. repeat split; eauto. now constructor.
Qed.

(** And a text with a prefix the pattern matches is never turned down, as
    long as the continuation takes the rest. *)
Lemma match_k_complete (r : regex) (a : pystr) :
  lang r a ->
  forall (b : pystr) (g : groups) (k : pystr -> groups -> option R),
    (forall g', k b g' <> None) -> match_k r (a ++ b) g k <> None.
Proof.
  induction 1 as [l|cls c s Hc Hs|r1 r2 a Ha IH|r1 r2 a Ha IH
                  |r1 r2 a1 a2 H1 IH1 H2 IH2|r|r a Ha IH|i r a Ha IH];
    intros b g k Hk; simpl.
  - assert (Hs : startswith (l ++ b) l = true) by (apply startswith_app; eauto).
    rewrite Hs, skipn_app_exact. apply Hk.
  - change (plus_k cls ((c :: s) ++ b) (fun s' => k s' g) <> None).
    apply plus_k_complete; [apply Hk | now constructor | discriminate].
  - specialize (IH b g k Hk). destruct (match_k r1 (a ++ b) g k); [discriminate|congruence].
  - specialize (IH b g k Hk). destruct (match_k r1 (a ++ b) g k); [discriminate|exact IH].
  - rewrite <- app_assoc. apply IH1. intros g'. now apply IH2.
  - destruct (match_k r b g k); [discriminate | apply Hk].
  - specialize (IH b g k Hk). destruct (match_k r (a ++ b) g k); [discriminate|congruence].
  - apply IH. intros g'. apply Hk.
Qed.
End MatcherFacts.

(** [re.match] succeeds exactly on the texts with a matching prefix. *)
Lemma re_match_prefix (r : regex) (s : pystr) :
  is_some (re_match r s) = true <-> prefix_in r s.
Proof.
  unfold re_match, prefix_in. split.
  - destruct (match_k r s no_groups (fun _ g => Some g)) as [g|] eqn:H; [|discriminate].
    intros _. apply match_k_sound in H as [a [b [g' [-> [Ha _]]]]]. eauto.
  - intros [a [b [-> Ha]]].
    pose proof (match_k_complete Ha (R := groups) b no_groups (fun _ g => Some g)) as H.
    destruct (match_k r (a ++ b) no_groups (fun _ g => Some g)); [reflexivity|].
    exfalso. apply H; [discriminate | reflexivity].
Qed.

(* ================================================================== *)
(** * The three patterns of [parse_proxies] *)

Lemma match_lit (R : Type) (l t : pystr) (g : groups)
      (k : pystr -> groups -> option R) :
  match_k (Lit l) (l ++ t) g k = k t g.
Proof.
  simpl. assert (H : startswith (l ++ t) l = true) by (apply startswith_app; eauto).
  now rewrite H, skipn_app_exact.
Qed.

(** [cls+] before the end of the pattern takes the whole text when all of it
    is in the class. *)
Lemma plus_k_all (R : Type) (cls : N -> bool) (k : pystr -> option R) (x : R) :
  k [] = Some x ->
  forall s, s <> [] -> Forall (fun c => cls c = true) s -> plus_k cls s k = Some x.
Proof.
  intros Hk. induction s as [|c s IH]; intros Hne Hs; [congruence|].
  inversion Hs as [|? ? Hc Hs']; subst. simpl. rewrite Hc.
  destruct s as [|c' s]; [simpl; exact Hk|].
  now rewrite IH.
Qed.

(** The end of the first pattern on a text without a newline: it matches as
    soon as the text is not empty, and the two groups together are the text. *)
Lemma endpoint_match (rest : pystr) (g : groups) :
  rest <> [] -> Forall (fun c => cls_any c = true) rest -> g 2%nat = None ->
  exists m : groups,
    match_k re_endpoint rest g (fun _ g' => Some g') = Some m /\
    m 1%nat = g 1%nat /\
    (match m 2%nat with Some a => a | None => [] end) ++ group m 3 = rest.
Proof.
  intros Hne Hany Hg2.
  assert (Hgroup3 : forall (t : pystr) (g0 : groups),
             t <> [] -> Forall (fun c => cls_any c = true) t ->
             match_k (Group 3 (Plus cls_any)) t g0 (fun _ g' => Some g')
             = Some (set_group 3 t g0)).
  { intros t g0 Ht Hall. cbn [match_k].
    rewrite (plus_k_all cls_any _ (x := set_group 3 t g0)); auto.
    simpl. now rewrite Nat.sub_0_r, firstn_all. }
  unfold re_endpoint. cbn [match_k].
  match goal with |- context [plus_k cls_not_at rest ?k] =>
    destruct (plus_k cls_not_at rest k) as [m|] eqn:Hplus end.
  - exists m. split; [reflexivity|].
    apply plus_k_sound in Hplus as [a [b [-> [Ha Hk]]]].
    destruct (startswith b (u "@")) eqn:Hat; [|discriminate].
    apply startswith_app in Hat as [t ->]. rewrite skipn_app_exact in Hk.
    assert (Ht : Forall (fun c => cls_any c = true) t).
    { apply Forall_app in Hany as [_ Hany]. now apply Forall_app in Hany as [_ Hany]. }
    destruct t as [|c t]; [simpl in Hk; discriminate|].
    change (match_k (Group 3 (Plus cls_any)) (c :: t)
             (set_group 2 (firstn (List.length (a ++ u "@" ++ c :: t)
                                   - List.length (c :: t)) (a ++ u "@" ++ c :: t)) g)
             (fun _ g' => Some g') = Some m) in Hk.
    rewrite Hgroup3 in Hk by (auto; discriminate). injection Hk as <-.
    pose proof (firstn_app_exact (a ++ u "@") (c :: t)) as Hf.
    rewrite <- app_assoc in Hf. simpl in Hf. rewrite Hf.
    split; [reflexivity|]. unfold group, set_group. simpl.
    now rewrite <- app_assoc.
  - erewrite plus_k_all; [|reflexivity|exact Hne|exact Hany].
    eexists. split; [reflexivity|].
    unfold group, set_group. simpl. now rewrite Hg2, Nat.sub_0_r, firstn_all.
Qed.

Lemma match_seq (R : Type) (r1 r2 : regex) (s : pystr) (g : groups)
      (k : pystr -> groups -> option R) :
  match_k (Seq r1 r2) s g k = match_k r1 s g (fun s' g' => match_k r2 s' g' k).
Proof. reflexivity. Qed.

Lemma match_group_alt (R : Type) (i : nat) (r1 r2 : regex) (s : pystr) (g : groups)
      (k : pystr -> groups -> option R) :
  match_k (Group i (Alt r1 r2)) s g k
  = match match_k (Group i r1) s g k with
    | Some x => Some x
    | None => match_k (Group i r2) s g k
    end.
Proof. reflexivity. Qed.

Lemma match_group_lit (R : Type) (i : nat) (l t : pystr) (g : groups)
      (k : pystr -> groups -> option R) :
  match_k (Group i (Lit l)) (l ++ t) g k = k t (set_group i l g).
Proof.
  cbn [match_k].
  assert (H : startswith (l ++ t) l = true) by (apply startswith_app; eauto).
  now rewrite H, skipn_app_exact, firstn_app_exact.
Qed.

Lemma scheme_match (P rest : pystr) :
  In P schemes -> rest <> [] -> Forall (fun c => cls_any c = true) rest ->
  exists m : groups,
    re_match re_scheme (P ++ u "://" ++ rest) = Some m /\
    group m 1 = P /\
    (match m 2%nat with Some a => a | None => [] end) ++ group m 3 = rest.
Proof.
  intros HP Hne Hany.
  assert (Hend : forall Q : pystr,
             exists m : groups,
               match_k (Seq (Lit (u "://")) re_endpoint) (u "://" ++ rest)
                       (set_group 1 Q no_groups) (fun _ g' => Some g') = Some m /\
               group m 1 = Q /\
               (match m 2%nat with Some a => a | None => [] end) ++ group m 3 = rest).
  { intros Q. rewrite match_seq, match_lit.
    destruct (@endpoint_match rest (set_group 1 Q no_groups) Hne Hany eq_refl)
      as [m [Hm [H1 H3]]].
    exists m. repeat split; auto. unfold group. now rewrite H1. }
  unfold re_match, re_scheme. rewrite match_seq, !match_group_alt.
  destruct HP as [<-|[<-|[<-|[]]]].
  - rewrite match_group_lit. destruct (Hend (u "http")) as [m [Hm H]].
    rewrite Hm. eauto.
  - replace (match_k (Group 1 (Lit (u "http"))) (u "https" ++ u "://" ++ rest) no_groups
               (fun s' g' => match_k (Seq (Lit (u "://")) re_endpoint) s' g'
                               (fun _ g => Some g)))
      with (@None groups) by reflexivity.
    rewrite match_group_lit. destruct (Hend (u "https")) as [m [Hm H]].
    rewrite Hm. eauto.
  - replace (match_k (Group 1 (Lit (u "http"))) (u "socks5" ++ u "://" ++ rest) no_groups
               (fun s' g' => match_k (Seq (Lit (u "://")) re_endpoint) s' g'
                               (fun _ g => Some g)))
      with (@None groups) by reflexivity.
    replace (match_k (Group 1 (Lit (u "https"))) (u "socks5" ++ u "://" ++ rest) no_groups
               (fun s' g' => match_k (Seq (Lit (u "://")) re_endpoint) s' g'
                               (fun _ g => Some g)))
      with (@None groups) by reflexivity.
    rewrite match_group_lit. destruct (Hend (u "socks5")) as [m [Hm H]].
    rewrite Hm. eauto.
Qed.

(** What the first pattern matches: a protocol, [://] and at least one more
    character. *)
Lemma lang_scheme_inv (a : pystr) :
  lang re_scheme a ->
  exists P rest, In P schemes /\ rest <> [] /\ a = P ++ u "://" ++ rest.
Proof.
  unfold re_scheme, re_endpoint. intros H.
  repeat match goal with
         | H : lang (Lit _) _ |- _ => inversion H; subst; clear H
         | H : lang (Plus _) _ |- _ => inversion H; subst; clear H
         | H : lang (Alt _ _) _ |- _ => inversion H; subst; clear H
         | H : lang (Seq _ _) _ |- _ => inversion H; subst; clear H
         | H : lang (Opt _) _ |- _ => inversion H; subst; clear H
         | H : lang (Group _ _) _ |- _ => inversion H; subst; clear H
         end;
    match goal with
    | |- exists P rest, _ /\ _ /\ ?p ++ _ ++ ?r = _ => exists p, r
    end;
    (split; [unfold schemes; simpl; tauto|]);
    (split; [|reflexivity]);
    (intros E; apply (f_equal (@List.length N)) in E;
     rewrite ?length_app in E; simpl in E; lia).
Qed.

Lemma scheme_form_unique (P P' rest rest' : pystr) :
  In P schemes -> In P' schemes ->
  P ++ u "://" ++ rest = P' ++ u "://" ++ rest' -> P = P' /\ rest = rest'.
Proof.
  intros [<-|[<-|[<-|[]]]] [<-|[<-|[<-|[]]]] H; simpl in H;
    try discriminate; injection H as ->; auto.
Qed.

(** [re.match] of the first pattern on a line without a newline. *)
Lemma re_scheme_spec (line : pystr) :
  Forall (fun c => cls_any c = true) line ->
  match re_match re_scheme line with
  | Some m =>
    exists P rest, In P schemes /\ rest <> [] /\ line = P ++ u "://" ++ rest /\
                   group m 1 = P /\
                   (match m 2%nat with Some a => a | None => [] end) ++ group m 3 = rest
  | None =>
    forall P rest, In P schemes -> rest <> [] -> line <> P ++ u "://" ++ rest
  end.
Proof.
  intros Hany. destruct (re_match re_scheme line) as [m|] eqn:Hm.
  - assert (Hp : prefix_in re_scheme line).
    { apply re_match_prefix. now rewrite Hm. }
    destruct Hp as [a [b [-> Ha]]].
    apply lang_scheme_inv in Ha as [P [rest [HP [Hne ->]]]].
    exists P, (rest ++ b).
    assert (Hline : (P ++ u "://" ++ rest) ++ b = P ++ u "://" ++ rest ++ b)
      by now rewrite <- !app_assoc.
    rewrite Hline in *.
    assert (Hne' : rest ++ b <> []) by (destruct rest; [congruence | discriminate]).
    assert (Hany' : Forall (fun c => cls_any c = true) (rest ++ b)).
    { apply Forall_app in Hany as [_ Hany]. now apply Forall_app in Hany as [_ Hany]. }
    destruct (scheme_match HP Hne' Hany') as [m' [Hm' [H1 H3]]].
    rewrite Hm in Hm'. injection Hm' as <-. repeat split; auto.
  - intros P rest HP Hne ->.
    assert (Hany' : Forall (fun c => cls_any c = true) rest).
    { apply Forall_app in Hany as [_ Hany]. now apply Forall_app in Hany as [_ Hany]. }
    destruct (scheme_match HP Hne Hany') as [m' [Hm' _]]. congruence.
Qed.

(** Lines, once split at the newlines and stripped, hold no newline. *)
Lemma split_no_sep (sep : N) (s : pystr) :
  Forall (Forall (fun c => (c =? sep)%N = false)) (split sep s).
Proof.
  induction s as [|c s IH]; simpl.
  - repeat constructor.
  - destruct (c =? sep)%N eqn:Hc.
    + constructor; [constructor | exact IH].
    + destruct (split sep s) as [|piece rest]; [repeat constructor; auto|].
      inversion IH; subst. constructor; [constructor|]; auto.
Qed.

Lemma lstrip_Forall (P : N -> Prop) (s : pystr) : Forall P s -> Forall P (lstrip s).
Proof.
  induction 1 as [|c s Hc Hs IH]; simpl; [constructor|].
  destruct (isspace c); [exact IH | now constructor].
Qed.

Lemma strip_Forall (P : N -> Prop) (s : pystr) : Forall P s -> Forall P (strip s).
Proof.
  intros H. unfold strip, rstrip. apply Forall_rev, lstrip_Forall, Forall_rev.
  now apply lstrip_Forall.
Qed.

Lemma line_no_newline (text raw : pystr) :
  In raw (split NL text) -> Forall (fun c => cls_any c = true) (strip raw).
Proof.
  intros Hin. apply strip_Forall.
  pose proof (split_no_sep NL text) as H. rewrite Forall_forall in H.
  specialize (H _ Hin). eapply Forall_impl; [|exact H].
  intros c Hc. unfold cls_any. now rewrite Hc.
Qed.

(** The loop only ever appends, one line at a time. *)
Lemma parse_line_app (acc : list (pystr * pystr)) (raw : pystr) :
  parse_line acc raw = acc ++ parse_line [] raw.
Proof.
  unfold parse_line.
  destruct (str_eqb (strip raw) [] || startswith (strip raw) (u "#"));
    [now rewrite app_nil_r|].
  destruct (re_match re_scheme (strip raw)); [reflexivity|].
  destruct (is_some (re_match re_auth (strip raw))); [reflexivity|].
  destruct (is_some (re_match re_bare (strip raw))); [reflexivity|].
  now rewrite app_nil_r.
Qed.

Lemma parse_proxies_lines (text : pystr) :
  parse_proxies text = flat_map (parse_line []) (split NL (strip text)).
Proof.
  unfold parse_proxies.
  assert (H : forall ls acc,
             fold_left parse_line ls acc = acc ++ flat_map (parse_line []) ls).
  { induction ls as [|l ls IH]; intros acc; simpl; [now rewrite app_nil_r|].
    rewrite IH, parse_line_app. now rewrite <- app_assoc. }
  apply H.
Qed.

(** The four outcomes of one line, by priority. *)
Lemma parse_line_cases (raw : pystr) :
  let line := strip raw in
  Forall (fun c => cls_any c = true) line ->
  (line = [] \/ startswith line (u "#") = true -> parse_line [] raw = []) /\
  (forall P rest, In P schemes -> rest <> [] -> line = P ++ u "://" ++ rest ->
                  parse_line [] raw = [(rest, P)]) /\
  (line <> [] -> startswith line (u "#") = false ->
   (forall P rest, In P schemes -> rest <> [] -> line <> P ++ u "://" ++ rest) ->
   (prefix_in re_auth line \/ prefix_in re_bare line ->
    parse_line [] raw = [(line, u "http")]) /\
   (~ prefix_in re_auth line -> ~ prefix_in re_bare line -> parse_line [] raw = [])).
Proof.
  intros line Hany. pose proof (re_scheme_spec Hany) as Hs.
  unfold parse_line. fold line. split; [|split].
  - intros [->| ->]; [reflexivity | now rewrite orb_true_r].
  - intros P rest HP Hne Hline.
    assert (Hb : str_eqb line [] || startswith line (u "#") = false).
    { rewrite Hline. destruct HP as [<-|[<-|[<-|[]]]]; reflexivity. }
    rewrite Hb. destruct (re_match re_scheme line) as [m|].
    + destruct Hs as [P' [rest' [HP' [Hne' [Hl [H1 H3]]]]]].
      rewrite Hl in Hline.
      destruct (scheme_form_unique _ _ HP' HP Hline) as [-> ->].
      cbv zeta. simpl app. f_equal. f_equal; [exact H3 | exact H1].
    + exfalso. exact (Hs P rest HP Hne Hline).
  - intros Hne Hhash Hnot.
    assert (Hb : str_eqb line [] || startswith line (u "#") = false).
    { rewrite Hhash, orb_false_r. destruct (str_eqb line []) eqn:He; [|reflexivity].
      apply str_eqb_eq in He. congruence. }
    rewrite Hb. destruct (re_match re_scheme line) as [m|].
    { destruct Hs as [P [rest [HP [Hne' [Hl _]]]]]. exfalso. exact (Hnot P rest HP Hne' Hl). }
    split.
    + intros [H|H]; apply re_match_prefix in H.
      * now rewrite H.
      * rewrite H. now destruct (is_some (re_match re_auth line)).
    + intros Ha Hbare.
      destruct (is_some (re_match re_auth line)) eqn:E1;
        [exfalso; apply Ha; now apply re_match_prefix|].
      destruct (is_some (re_match re_bare line)) eqn:E2;
        [exfalso; apply Hbare; now apply re_match_prefix|].
      reflexivity.
Qed.

(** C8. [parse_proxies] takes the lines of the text one by one, in order, and
    each line, stripped, falls in the first case that applies: blank or
    starting with [#], no pair; [protocol://rest] with the protocol one of
    http, https, socks5 and [rest] not empty, the pair [(rest, protocol)];
    otherwise, a match of [user:pass@ip:port] or of [ip:port] (as [re.match]
    matches them), the pair [(line, "http")]; otherwise no pair. *)
Theorem parse_proxies_classifies :
  forall text : pystr,
    parse_proxies text = flat_map (parse_line []) (split NL (strip text)) /\
    forall raw : pystr,
      In raw (split NL (strip text)) ->
      let line := strip raw in
      (line = [] \/ startswith line (u "#") = true -> parse_line [] raw = []) /\
      (forall P rest : pystr,
          In P schemes -> rest <> [] -> line = P ++ u "://" ++ rest ->
          parse_line [] raw = [(rest, P)]) /\
      (line <> [] -> startswith line (u "#") = false ->
       (forall P rest : pystr,
           In P schemes -> rest <> [] -> line <> P ++ u "://" ++ rest) ->
       (prefix_in re_auth line \/ prefix_in re_bare line ->
        parse_line [] raw = [(line, u "http")]) /\
       (~ prefix_in re_auth line -> ~ prefix_in re_bare line ->
        parse_line [] raw = [])).
Proof.
  intros text. split; [apply parse_proxies_lines|].
  intros raw Hin. apply parse_line_cases. eapply line_no_newline; eauto.
Qed.

Lemma parse_proxies_classifies_witness :
  parse_proxies (u "# note" ++ [NL] ++ u "socks5://user:pw@10.0.0.1:1080"
                   ++ [NL] ++ u "  10.0.0.1:8080 " ++ [NL] ++ u "no proxy here")
  = [(u "user:pw@10.0.0.1:1080", u "socks5"); (u "10.0.0.1:8080", u "http")]
  /\ parse_line [] (u "socks5://user:pw@10.0.0.1:1080")
     = [(u "user:pw@10.0.0.1:1080", u "socks5")].
Proof.
  split.
  - rewrite (proj1 (parse_proxies_classifies _)). reflexivity.
  - apply (proj1 (proj2 (proj2 (parse_proxies_classifies
             (u "socks5://user:pw@10.0.0.1:1080")) _ (or_introl eq_refl)))
             (u "socks5") (u "user:pw@10.0.0.1:1080")).
    + right; right; left; reflexivity.
    + discriminate.
    + reflexivity.
Defined.

(* ------------------------------------------------------------------ *)

Lemma lang_bare_head (a : pystr) :
  lang re_bare a -> exists c a', a = c :: a' /\ cls_digit_dot c = true.
Proof.
  unfold re_bare. intros H.
  inversion H as [| | | |? ? a1 a2 H1 H2| | |]; subst; clear H.
  inversion H1; subst. simpl. eauto.
Qed.

Lemma lang_auth_nonempty (a : pystr) : lang re_auth a -> a <> [].
Proof.
  unfold re_auth. intros H.
  inversion H as [| | | |? ? a1 a2 H1 H2| | |]; subst; clear H.
  inversion H1; subst. discriminate.
Qed.

(** A line that starts like [ip:port] is not a comment and names no protocol. *)
Lemma bare_line_head (c : N) (s : pystr) :
  cls_digit_dot c = true ->
  startswith (c :: s) (u "#") = false /\ re_match re_scheme (c :: s) = None.
Proof.
  intros Hc. split.
  - simpl. destruct (c =? 35)%N eqn:E; [|reflexivity].
    apply N.eqb_eq in E. subst c. discriminate Hc.
  - destruct (re_match re_scheme (c :: s)) as [m|] eqn:Hm; [|reflexivity].
    assert (Hp : prefix_in re_scheme (c :: s)) by (apply re_match_prefix; now rewrite Hm).
    destruct Hp as [a [b [Hab Ha]]].
    apply lang_scheme_inv in Ha as [P [rest [HP [_ ->]]]].
    destruct HP as [<-|[<-|[<-|[]]]]; simpl in Hab; injection Hab as -> _;
      discriminate Hc.
Qed.

(** C10. Acceptance goes by what the line starts with, not by the whole line.
    A stripped line that begins with a match of [ip:port], whatever follows,
    gives the pair of the whole line and ["http"].  More generally a stripped
    line, not a comment, that begins with a match of any of the three
    patterns gives exactly one pair, whose endpoint runs to the end of the
    line: the whole line with ["http"], or all that follows [protocol://]. *)
Theorem parse_line_prefix_based :
  forall (acc : list (pystr * pystr)) (raw a tail : pystr),
    strip raw = a ++ tail ->
    (lang re_bare a -> parse_line acc raw = acc ++ [(a ++ tail, u "http")]) /\
    (Forall (fun c => cls_any c = true) (strip raw) ->
     startswith (strip raw) (u "#") = false ->
     lang re_scheme a \/ lang re_auth a \/ lang re_bare a ->
     parse_line acc raw = acc ++ [(a ++ tail, u "http")] \/
     exists P rest : pystr,
       In P schemes /\ a ++ tail = P ++ u "://" ++ rest /\
       parse_line acc raw = acc ++ [(rest, P)]).
Proof.
  intros acc raw a tail Hline. split.
  - intros Ha. destruct (lang_bare_head Ha) as [c [a' [-> Hc]]].
    destruct (@bare_line_head c (a' ++ tail) Hc) as [Hhash Hscheme].
    assert (Hbare : is_some (re_match re_bare ((c :: a') ++ tail)) = true).
    { apply re_match_prefix. exists (c :: a'), tail. auto. }
    unfold parse_line. rewrite Hline.
    change ((c :: a') ++ tail) with (c :: a' ++ tail) in *.
    rewrite Hhash, Hscheme, Hbare. simpl.
    now destruct (is_some (re_match re_auth (c :: a' ++ tail))).
  - intros Hany Hhash Hlang. rewrite parse_line_app.
    destruct (@parse_line_cases raw Hany) as [_ [Hsch Hrest]]. rewrite Hline in *.
    pose proof (re_scheme_spec Hany) as Hs.
    assert (Hne : a ++ tail <> []).
    { assert (a <> []).
      { destruct Hlang as [H|[H|H]].
        - apply lang_scheme_inv in H as [P [rest [HP [_ ->]]]].
          destruct HP as [<-|[<-|[<-|[]]]]; discriminate.
        - now apply lang_auth_nonempty.
        - destruct (lang_bare_head H) as [c [a' [-> _]]]. discriminate. }
      destruct a; [congruence | discriminate]. }
    destruct (re_match re_scheme (a ++ tail)) as [m|] eqn:Hm.
    + destruct Hs as [P [rest [HP [Hr [Heq _]]]]].
      right. exists P, rest. repeat split; auto.
      now rewrite (Hsch P rest HP Hr Heq).
    + left. destruct (Hrest Hne Hhash Hs) as [Hyes _].
      rewrite Hyes; [reflexivity|].
      destruct Hlang as [H|[H|H]].
      * exfalso. assert (Hp : prefix_in re_scheme (a ++ tail)) by (exists a, tail; auto).
        apply re_match_prefix in Hp. rewrite Hm in Hp. discriminate.
      * left. exists a, tail. auto.
      * right. exists a, tail. auto.
Qed.

Lemma parse_line_prefix_based_witness :
  parse_line [] (u "1.2.3.4:80 trailing, text  ")
  = [] ++ [(u "1.2.3.4:80" ++ u " trailing, text", u "http")].
Proof.
  apply (proj1 (@parse_line_prefix_based [] (u "1.2.3.4:80 trailing, text  ")
                  (u "1.2.3.4:80") (u " trailing, text") eq_refl)).
  change (lang re_bare (u "1.2.3.4" ++ u ":" ++ u "80")).
  unfold re_bare. apply lang_seq; [|apply lang_seq].
  - apply (@lang_plus cls_digit_dot 49%N (u ".2.3.4")); [reflexivity|].
    repeat constructor.
  - apply lang_lit.
  - apply (@lang_plus cls_digit 56%N (u "0")); [reflexivity|].
    repeat constructor.
Defined.

(* ================================================================== *)
(** * The CSV export *)

Lemma split_app_sep (sep : N) (a b : pystr) :
  forallb (fun c => negb (c =? sep)%N) a = true ->
  split sep (a ++ sep :: b) = a :: split sep b.
Proof.
  induction a as [|c a IH]; simpl; intros H.
  - now rewrite N.eqb_refl.
  - apply andb_true_iff in H as [Hc Ha]. apply negb_true_iff in Hc.
    now rewrite Hc, IH.
Qed.

Lemma split_plain (sep : N) (a : pystr) :
  forallb (fun c => negb (c =? sep)%N) a = true -> split sep a = [a].
Proof.
  induction a as [|c a IH]; simpl; intros H; [reflexivity|].
  apply andb_true_iff in H as [Hc Ha]. apply negb_true_iff in Hc.
  now rewrite Hc, IH.
Qed.

Lemma plain_no_comma (s : pystr) :
  plain_text s = true -> forallb (fun c => negb (c =? COMMA)%N) s = true.
Proof.
  unfold plain_text, plain_char. induction s as [|c s IH]; simpl; [reflexivity|].
  intros H. apply andb_true_iff in H as [Hc Hs]. apply andb_true_iff in Hc as [Hc _].
  now rewrite Hc, IH.
Qed.

Lemma plain_no_newline (s : pystr) :
  plain_text s = true -> forallb (fun c => negb (c =? NL)%N) s = true.
Proof.
  unfold plain_text, plain_char. induction s as [|c s IH]; simpl; [reflexivity|].
  intros H. apply andb_true_iff in H as [Hc Hs]. apply andb_true_iff in Hc as [_ Hc].
  now rewrite Hc, IH.
Qed.

Lemma plain_text_app (a b : pystr) :
  plain_text (a ++ b) = plain_text a && plain_text b.
Proof. apply forallb_app. Qed.

Lemma plain_uint_chars (d : Decimal.uint) : plain_text (uint_chars d) = true.
Proof. induction d; simpl; auto. Qed.

Lemma plain_fixed2 (neg : bool) (h : Z) : plain_text (fixed2 neg h) = true.
Proof.
  unfold fixed2, two_digits, digits_of_N.
  rewrite !plain_text_app, !plain_uint_chars.
  destruct neg; destruct (Z.abs_N h mod 100 <? 10)%N; reflexivity.
Qed.

(** A latency printed with two decimals holds no comma and no newline. *)
Lemma plain_format_2f (x : pynum) : plain_text (format_2f x) = true.
Proof.
  destruct x as [z|f]; unfold format_2f; [apply plain_fixed2|].
  destruct (Prim2SF f) as [s|s| |s m e]; try apply plain_fixed2;
    try reflexivity. now destruct s.
Qed.

Lemma csv_row_line (r : ProxyResult) :
  ProxyCheckerCLI.csv_row r = csv_line r ++ [NL].
Proof.
  unfold ProxyCheckerCLI.csv_row, csv_line.
  change (u ",") with [COMMA].
  repeat (rewrite <- app_assoc; simpl). reflexivity.
Qed.

Lemma export_csv_text (rs : list ProxyResult) (f : pystr) :
  ProxyCheckerCLI._export_csv rs f
  = f ++ ProxyCheckerCLI.csv_header ++ NL :: List.concat (map ProxyCheckerCLI.csv_row rs).
Proof.
  unfold ProxyCheckerCLI._export_csv.
  assert (H : forall l init,
             fold_left (fun f r => f ++ ProxyCheckerCLI.csv_row r) l init
             = init ++ List.concat (map ProxyCheckerCLI.csv_row l)).
  { induction l as [|r l IH]; intros init; simpl; [now rewrite app_nil_r|].
    now rewrite IH, <- app_assoc. }
  rewrite H.
  now rewrite <- !app_assoc.
Qed.

Lemma csv_line_fields (r : ProxyResult) :
  plain_result r = true ->
  split COMMA (csv_line r) = ProxyCheckerCLI.csv_fields r /\
  forallb (fun c => negb (c =? NL)%N) (csv_line r) = true.
Proof.
  unfold plain_result. rewrite !andb_true_iff. intros [[[H1 H2] H3] H5].
  pose proof (plain_format_2f (latency r)) as H4.
  unfold csv_line, ProxyCheckerCLI.csv_fields. split.
  - rewrite !split_app_sep, split_plain by now apply plain_no_comma.
    reflexivity.
  - repeat (rewrite forallb_app; simpl).
    now rewrite !plain_no_newline.
Qed.

Lemma split_rows (rs : list ProxyResult) :
  forallb plain_result rs = true ->
  split NL (List.concat (map ProxyCheckerCLI.csv_row rs)) = map csv_line rs ++ [[]].
Proof.
  induction rs as [|r rs IH]; simpl; intros H; [reflexivity|].
  apply andb_true_iff in H as [Hr Hrs].
  rewrite csv_row_line, <- app_assoc. simpl.
  rewrite split_app_sep by now apply csv_line_fields.
  now rewrite IH.
Qed.

(** C9, counterexample.  Two results that differ in their latency are
    exported to the same text, so that no reading back can tell them apart;
    and a result whose error message holds a comma reads back as a row of six
    fields, the fifth of which is not the message. *)
Lemma csv_roundtrip_counterexample :
  ProxyCheckerCLI._export_csv [fast_result] []
  = ProxyCheckerCLI._export_csv [fast_result'] [] /\
  latency fast_result <> latency fast_result' /\
  List.length (nth 1 (read_csv (ProxyCheckerCLI._export_csv [comma_result] [])) [])
  = 6%nat /\
  nth 4 (nth 1 (read_csv (ProxyCheckerCLI._export_csv [comma_result] [])) []) []
  = u "Cannot connect to host 10.0.0.1:8080 ssl:default [Connect call failed ('10.0.0.1'" /\
  nth 4 (nth 1 (read_csv (ProxyCheckerCLI._export_csv [comma_result] [])) []) []
  <> error comma_result.
Proof.
  split; [vm_compute; reflexivity|]. split.
  - intros H.
    apply (f_equal (fun x => match x with
                             | PFloat f => (f <? 1.2341)%float
                             | PInt _ => false
                             end)) in H.
    vm_compute in H. discriminate H.
  - vm_compute. repeat split. discriminate.
Qed.

(** C9, amended.  For results whose endpoint, protocol, status and error
    hold no comma and no newline, the exported text read back line by line
    and comma by comma is the header row followed by one row per result, in
    order, of five fields: endpoint, protocol, status and error as they are,
    and the latency as printed with two decimals. *)
Theorem csv_roundtrip :
  forall rs : list ProxyResult,
    forallb plain_result rs = true ->
    read_csv (ProxyCheckerCLI._export_csv rs [])
    = split COMMA ProxyCheckerCLI.csv_header :: map ProxyCheckerCLI.csv_fields rs /\
    List.length (tl (read_csv (ProxyCheckerCLI._export_csv rs []))) = List.length rs /\
    forall (i : nat) (r : ProxyResult),
      nth_error rs i = Some r ->
      nth_error (tl (read_csv (ProxyCheckerCLI._export_csv rs []))) i
      = Some [proxy r; protocol r; status r; format_2f (latency r); error r].
Proof.
  intros rs Hrs.
  assert (Hread : read_csv (ProxyCheckerCLI._export_csv rs [])
                  = split COMMA ProxyCheckerCLI.csv_header
                      :: map ProxyCheckerCLI.csv_fields rs).
  { unfold read_csv. rewrite export_csv_text, app_nil_l.
    rewrite split_app_sep by reflexivity.
    rewrite split_rows by exact Hrs.
    change (ProxyCheckerCLI.csv_header :: map csv_line rs ++ [[]])
      with ((ProxyCheckerCLI.csv_header :: map csv_line rs) ++ [[]]).
    rewrite removelast_last. simpl. f_equal.
    rewrite map_map. apply map_ext_in. intros r Hr.
    apply csv_line_fields. rewrite forallb_forall in Hrs. now apply Hrs. }
  rewrite Hread. simpl tl. split; [reflexivity|]. split; [apply length_map|].
  intros i r Hi. now rewrite nth_error_map, Hi.
Qed.

Lemma csv_roundtrip_witness :
  read_csv (ProxyCheckerCLI._export_csv [fast_result; result_of (u "timeout") 10000] [])
  = [[u "代理"; u "协议"; u "状态"; u "延迟(ms)"; u "错误信息"];
     [u "10.0.0.1:8080"; u "http"; u "success"; u "1.23"; u ""];
     [u "10.0.0.1:8080"; u "http"; u "timeout"; u "10000.00"; u ""]].
Proof.
  exact (proj1 (csv_roundtrip [fast_result; result_of (u "timeout") 10000] eq_refl)).
Defined.

(* ================================================================== *)
(** * Further properties of a probe *)

Lemma startswith_prefix (l t : pystr) : startswith (l ++ t) l = true.
Proof. apply startswith_app. eauto. Qed.

(** X1. The URL a probe asks for always starts with [http://] or
    [https://]: a configured test URL that has one of the two is used as it
    is, any other gets [http://] in front; doing it twice changes nothing.
    Both checkers. *)
Theorem test_url_gets_scheme :
  forall (url proxy protocol : pystr),
    (startswith (with_scheme url) (u "http://") = true \/
     startswith (with_scheme url) (u "https://") = true) /\
    (startswith url (u "http://") = true \/ startswith url (u "https://") = true ->
     with_scheme url = url) /\
    (startswith url (u "http://") = false -> startswith url (u "https://") = false ->
     with_scheme url = u "http://" ++ url) /\
    with_scheme (with_scheme url) = with_scheme url /\
    (forall self : ProxyChecker.t,
        req_url (ProxyChecker.request_of self proxy protocol)
        = with_scheme (ProxyChecker.test_url self)) /\
    (forall (lower : pystr -> pystr) (self : ProxyCheckerCLI.t),
        req_url (ProxyCheckerCLI.request_of lower self proxy protocol)
        = with_scheme (ProxyCheckerCLI.test_url self)).
Proof.
  intros url proxy protocol.
  assert (Hhas : startswith (with_scheme url) (u "http://") = true \/
                 startswith (with_scheme url) (u "https://") = true).
  { unfold with_scheme.
    destruct (startswith url (u "http://")) eqn:H1; [now left|].
    destruct (startswith url (u "https://")) eqn:H2; [now right|].
    left. apply startswith_prefix. }
  assert (Hkeep : forall x, startswith x (u "http://") = true \/
                            startswith x (u "https://") = true -> with_scheme x = x).
  { intros x [H|H]; unfold with_scheme; rewrite H; [reflexivity|].
    now rewrite orb_true_r. }
  repeat split; auto.
  intros H1 H2. unfold with_scheme. now rewrite H1, H2.
Qed.

Lemma test_url_gets_scheme_witness :
  with_scheme (u "www.google.com") = u "http://" ++ u "www.google.com" /\
  with_scheme (u "https://example.org/") = u "https://example.org/".
Proof.
  split.
  - exact (proj1 (proj2 (proj2 (test_url_gets_scheme (u "www.google.com") [] [])))
             eq_refl eq_refl).
  - exact (proj1 (proj2 (test_url_gets_scheme (u "https://example.org/") [] []))
             (or_intror eq_refl)).
Defined.

(** X2. What a probe returns is counted as a success by the statistics exactly
    when the request was answered with status 200; its status is one of
    [success], [failed] and [timeout], it names the pair it was given, and a
    success carries no error text.  Both checkers. *)
Theorem probe_success_iff_200 :
  forall (env : probe_env) (proxy protocol : pystr),
    (forall self : ProxyChecker.t,
        let r := ProxyChecker.check_proxy self env proxy protocol in
        (is_success r = true <->
         http_get env (ProxyChecker.request_of self proxy protocol) = Response 200) /\
        In (status r) [u "success"; u "failed"; u "timeout"] /\
        key r = (proxy, protocol) /\
        (is_success r = true -> error r = [])) /\
    (forall (lower : pystr -> pystr) (self : ProxyCheckerCLI.t),
        let r := ProxyCheckerCLI.check_proxy lower self env proxy protocol in
        (is_success r = true <->
         http_get env (ProxyCheckerCLI.request_of lower self proxy protocol)
         = Response 200) /\
        In (status r) [u "success"; u "failed"; u "timeout"] /\
        key r = (proxy, protocol) /\
        (is_success r = true -> error r = [])).
Proof.
  intros env proxy protocol. split.
  - intros self r. subst r. unfold ProxyChecker.check_proxy.
    destruct (http_get env _) as [code|e].
    + destruct (code =? 200)%Z eqn:Hc.
      * apply Z.eqb_eq in Hc. subst code. repeat split; simpl; auto.
      * apply Z.eqb_neq in Hc. repeat split; simpl; auto; try discriminate.
        intros H; injection H as ->. congruence.
    + destruct (isinstance e requests_Timeout);
        [|destruct (isinstance e requests_ProxyError)];
        repeat split; simpl; auto; discriminate.
  - intros lower self r. subst r. unfold ProxyCheckerCLI.check_proxy.
    destruct (http_get env _) as [code|e].
    + destruct (code =? 200)%Z eqn:Hc.
      * apply Z.eqb_eq in Hc. subst code.
        destruct (str_eqb (lower protocol) (u "socks5")); repeat split; simpl; auto.
      * apply Z.eqb_neq in Hc.
        destruct (str_eqb (lower protocol) (u "socks5"));
          repeat split; simpl; auto; try discriminate;
          intros H; injection H as ->; congruence.
    + destruct (isinstance e asyncio_TimeoutError);
        repeat split; simpl; auto; discriminate.
Qed.

(* ================================================================== *)
(** * Further properties of the statistics *)

Lemma filter_length_perm {A : Type} (f : A -> bool) (l l' : list A) :
  Permutation l l' -> List.length (filter f l) = List.length (filter f l').
Proof.
  induction 1 as [|x l l' _ IH|x y l|l l' l'' _ IH1 _ IH2]; simpl.
  - reflexivity.
  - destruct (f x); simpl; congruence.
  - destruct (f x), (f y); reflexivity.
  - congruence.
Qed.

Lemma get_statistics_counts (results : list ProxyResult) :
  results <> [] ->
  exists d rate avg mn mx,
    ProxyChecker.get_statistics results = Ok d /\
    ProxyCheckerCLI.get_statistics results = Ok (Some d) /\
    d = [(u "total", PInt (Z.of_nat (List.length results)));
         (u "success", PInt (Z.of_nat (List.length (filter is_success results))));
         (u "failed", PInt (Z.of_nat (List.length results)
                            - Z.of_nat (List.length (filter is_success results))));
         (u "success_rate", rate); (u "avg_latency", avg);
         (u "min_latency", mn); (u "max_latency", mx)] /\
    rate = PFloat (float_of_Z (Z.of_nat (List.length (filter is_success results)))
                   / float_of_Z (Z.of_nat (List.length results)) * 100)%float.
Proof.
  destruct results as [|r rs]; [congruence|]. intros _.
  destruct (get_statistics_nonempty r rs) as [Hgui Hcli].
  do 5 eexists. split; [exact Hgui|]. split; [exact Hcli|]. split; reflexivity.
Qed.

(** X3. The counts of the statistics do not depend on the order in which the
    probes ended: two result lists that are permutations of each other get
    the same [total], [success], [failed] and [success_rate]; [success] and
    [failed] are between 0 and [total] and add up to it.  Both checkers. *)
Theorem statistics_counts_order_free :
  forall (results results' : list ProxyResult),
    results <> [] -> Permutation results results' ->
    exists d d' : pydict,
      ProxyChecker.get_statistics results = Ok d /\
      ProxyChecker.get_statistics results' = Ok d' /\
      ProxyCheckerCLI.get_statistics results = Ok (Some d) /\
      ProxyCheckerCLI.get_statistics results' = Ok (Some d') /\
      (forall k, In k [u "total"; u "success"; u "failed"; u "success_rate"] ->
                 dict_get d k = dict_get d' k) /\
      exists total success failed : Z,
        dict_get d (u "total") = Some (PInt total) /\
        dict_get d (u "success") = Some (PInt success) /\
        dict_get d (u "failed") = Some (PInt failed) /\
        (0 <= success <= total)%Z /\ (0 <= failed <= total)%Z /\
        (success + failed = total)%Z.
Proof.
  intros results results' Hne Hperm.
  assert (Hne' : results' <> []).
  { intros ->. apply Permutation_sym, Permutation_nil in Hperm. congruence. }
  destruct (get_statistics_counts Hne) as [d [rate [avg [mn [mx [Hg [Hc [Hd Hrate]]]]]]]].
  destruct (get_statistics_counts Hne') as [d' [rate' [avg' [mn' [mx' [Hg' [Hc' [Hd' Hrate']]]]]]]].
  pose proof (Permutation_length Hperm) as Hlen.
  pose proof (filter_length_perm is_success Hperm) as Hflen.
  exists d, d'. repeat split; try assumption.
  - intros k Hk. subst d d' rate rate'. rewrite <- Hlen, <- Hflen.
    destruct Hk as [<-|[<-|[<-|[<-|[]]]]]; reflexivity.
  - subst d. do 3 eexists. split; [reflexivity|]. split; [reflexivity|].
    split; [reflexivity|].
    pose proof (filter_split_length is_success results). lia.
Qed.

Lemma statistics_counts_order_free_witness :
  exists d d' : pydict,
    ProxyChecker.get_statistics ten_results = Ok d /\
    ProxyChecker.get_statistics (rev ten_results) = Ok d' /\
    dict_get d (u "success_rate") = dict_get d' (u "success_rate").
Proof.
  destruct (@statistics_counts_order_free ten_results (rev ten_results)
              ltac:(discriminate) (Permutation_rev ten_results))
    as [d [d' [H1 [H2 [_ [_ [H _]]]]]]].
  exists d, d'. split; [exact H1|]. split; [exact H2|].
  apply H. right; right; right; left; reflexivity.
Defined.



(* ================================================================== *)
(** * Further properties of the batch run *)

Section CeilingOne.
Variable probe : probe_env -> pystr -> pystr -> ProxyResult.
Hypothesis probe_key : forall env p q, key (probe env p q) = (p, q).

Lemma fire_in_order (b b' : batch) (e : event) :
  (List.length (in_flight b) <= 1)%nat ->
  fire probe 1 b e = Some b' ->
  all_pairs b' = all_pairs b /\ (List.length (in_flight b') <= 1)%nat.
Proof.
  unfold fire, all_pairs. intros Hone. destruct e as [|i env].
  - destruct (queued b) as [|t q]; [discriminate|].
    destruct (Z.of_nat (List.length (in_flight b)) <? 1)%Z eqn:Hlt; [|discriminate].
    apply Z.ltb_lt in Hlt.
    destruct (in_flight b) as [|x fl]; [|simpl in Hlt; lia].
    intros H; injection H as <-. simpl. auto.
  - destruct (in_flight b) as [|[p q] [|y fl]] eqn:Hfl; simpl in Hone; try lia.
    + destruct i; discriminate.
    + destruct i as [|i]; simpl; [|destruct i; discriminate].
      intros H; injection H as <-. simpl.
      rewrite map_app, <- app_assoc. simpl. rewrite probe_key. auto.
Qed.

Lemma run_in_order (es : list event) : forall b b' : batch,
  (List.length (in_flight b) <= 1)%nat ->
  run probe 1 b es = Some b' -> all_pairs b' = all_pairs b.
Proof.
  induction es as [|e es IH]; intros b b' Hone; simpl.
  - intros H; now injection H as <-.
  - destruct (fire probe 1 b e) as [b1|] eqn:Hf; [|discriminate].
    destruct (fire_in_order _ _ Hone Hf) as [Hp Hone1].
    intros H. rewrite <- Hp. now apply IH.
Qed.
End CeilingOne.

(** X5. On the command line, under a concurrency of one the results come in
    input order: at any moment the pairs answered, the one in flight and the
    ones waiting, in this order, are the input list, and a batch that has
    finished holds the results of the input pairs one for one, first to
    last. *)
Theorem ceiling_one_keeps_input_order :
  forall (proxies : list (pystr * pystr)) (es : list event) (b : batch)
         (lower : pystr -> pystr) (self : ProxyCheckerCLI.t),
    ProxyCheckerCLI.concurrency self = 1%Z ->
    ProxyCheckerCLI.check_proxies_batch lower self proxies es = Some b ->
    map key (results b) ++ in_flight b ++ queued b = proxies /\
    (finished b = true -> map key (results b) = proxies).
Proof.
  intros proxies es b lower self Hc Hrun.
  unfold ProxyCheckerCLI.check_proxies_batch in Hrun. rewrite Hc in Hrun.
  pose proof (@run_in_order _ (cli_probe_key lower self) es (batch_init proxies) b
                (Nat.le_0_l _) Hrun) as H.
  unfold all_pairs in H. simpl in H. split; [exact H|].
  intros Hfin. apply finished_true in Hfin as [Hq Hi].
  now rewrite Hq, Hi, !app_nil_r in H.
Qed.

Lemma ceiling_one_keeps_input_order_witness :
  ProxyCheckerCLI.check_proxies_batch identity_lower cli_checker three_proxies
    cli_in_order = Some cli_in_order_end /\
  map key (results cli_in_order_end) = three_proxies.
Proof.
  split; [reflexivity|].
  exact (proj2 (@ceiling_one_keeps_input_order three_proxies cli_in_order
                  cli_in_order_end identity_lower cli_checker eq_refl eq_refl)
           eq_refl).
Defined.

(** X6. The command-line batch with a concurrency of 0 and at least one pair
    never gets anywhere: no task can take the semaphore, so no event happens,
    nothing is ever appended and the batch does not finish. *)
Theorem cli_zero_concurrency_never_finishes :
  forall (lower : pystr -> pystr) (self : ProxyCheckerCLI.t)
         (proxies : list (pystr * pystr)) (es : list event) (b : batch),
    ProxyCheckerCLI.concurrency self = 0%Z -> proxies <> [] ->
    ProxyCheckerCLI.check_proxies_batch lower self proxies es = Some b ->
    es = [] /\ results b = [] /\ finished b = false.
Proof.
  intros lower self proxies es b Hc Hne.
  unfold ProxyCheckerCLI.check_proxies_batch. rewrite Hc.
  destruct es as [|e es]; simpl.
  - intros H; injection H as <-. repeat split.
    destruct proxies; [congruence | reflexivity].
  - destruct e as [|i env]; simpl.
    + destruct proxies; discriminate.
    + destruct i; discriminate.
Qed.

Lemma cli_zero_concurrency_never_finishes_witness :
  finished (batch_init three_proxies) = false.
Proof.
  exact (proj2 (proj2 (@cli_zero_concurrency_never_finishes identity_lower
           (ProxyCheckerCLI.mk (u "http://www.google.com") 10 0 false)
           three_proxies [] (batch_init three_proxies)
           eq_refl ltac:(discriminate) eq_refl))).
Defined.

Section AnyOrder.
Variable self : ProxyChecker.t.
Variable concurrency : Z.
Variable env : probe_env.
Hypothesis ceiling : (1 <= concurrency)%Z.

(** Every probe runs and ends before the loop enters [as_completed]. *)
Lemma all_done_early (ps : list (pystr * pystr)) :
  forall fs : list ProxyResult,
    ProxyChecker.call_run self concurrency
      (ProxyChecker.mkCall (ProxyChecker.mkPool ps [] fs [] false) [])
      (flat_map (fun _ => [ProxyChecker.Take; ProxyChecker.Done 0 env]) ps)
    = Some (ProxyChecker.mkCall
              (ProxyChecker.mkPool [] []
                 (fs ++ map (fun pq => ProxyChecker.check_proxy self
                                         (ProxyChecker.answering env
                                            (ProxyChecker.request_of self (fst pq) (snd pq)))
                                         (fst pq) (snd pq)) ps)
                 [] false) []).
Proof.
  induction ps as [|[p q] ps IH]; intros fs; simpl.
  - now rewrite app_nil_r.
  - unfold ProxyChecker.call_fire, ProxyChecker.pool_fire. simpl.
    replace (concurrency <? 1)%Z with false by (symmetry; apply Z.ltb_ge; lia).
    replace (0 <? concurrency)%Z with true by (symmetry; apply Z.ltb_lt; lia).
    simpl. rewrite IH, <- app_assoc. reflexivity.
Qed.

Lemma nth_remove_last {A : Type} (l : list A) (x : A) :
  nth_error (l ++ [x]) (List.length l) = Some x /\
  remove_nth (List.length l) (l ++ [x]) = l.
Proof.
  induction l as [|y l [IH1 IH2]]; simpl; [auto|].
  split; [exact IH1 | now rewrite IH2].
Qed.

(** [as_completed] gives out the futures that were done when it was entered,
    the last of them first. *)
Lemma yield_backwards (fs : list ProxyResult) :
  forall rs : list ProxyResult,
    ProxyChecker.call_run self concurrency
      (ProxyChecker.mkCall (ProxyChecker.mkPool [] [] fs [] true) rs)
      (map ProxyChecker.Yield (rev (seq 0 (List.length fs))))
    = Some (ProxyChecker.mkCall (ProxyChecker.mkPool [] [] [] [] true)
              (rs ++ rev fs)).
Proof.
  induction fs as [|x fs IH] using rev_ind; intros rs.
  - simpl. now rewrite app_nil_r.
  - rewrite length_app. change (List.length [x]) with 1%nat.
    rewrite Nat.add_1_r, seq_S, rev_app_distr. simpl.
    unfold ProxyChecker.call_fire, ProxyChecker.pool_fire. simpl.
    replace (concurrency <? 1)%Z with false by (symmetry; apply Z.ltb_ge; lia).
    destruct (nth_remove_last fs x) as [Hn Hr].
    rewrite rev_app_distr.
    destruct (fs ++ [x]) as [|f fs'] eqn:E; [now destruct fs|].
    rewrite Hn, Hr. rewrite IH, <- app_assoc. reflexivity.
Qed.
End AnyOrder.

(** X17. The batch of the window's checker can return its results in the
    reverse of the input order, under any ceiling of at least one, a single
    worker thread included: when every probe is done before the loop enters
    [as_completed], the futures come out in the order of a [set]. *)
Theorem pool_results_can_come_reversed :
  forall (self : ProxyChecker.t) (concurrency : Z)
         (proxies : list (pystr * pystr)) (env : probe_env),
    (1 <= concurrency)%Z ->
    exists (es : list ProxyChecker.pool_event) (b : ProxyChecker.call),
      ProxyChecker.check_proxies_batch self concurrency proxies es = Some b /\
      ProxyChecker.returned b = true /\
      map key (ProxyChecker.self_results b) = rev proxies.
Proof.
  intros self concurrency proxies env Hc.
  exists (flat_map (fun _ => [ProxyChecker.Take; ProxyChecker.Done 0 env]) proxies
          ++ [ProxyChecker.Enter]
          ++ map ProxyChecker.Yield (rev (seq 0 (List.length proxies)))).
  eexists. split; [|split].
  - unfold ProxyChecker.check_proxies_batch.
    rewrite call_run_app.
    unfold ProxyChecker.call_init, ProxyChecker.pool_init.
    rewrite (@all_done_early self concurrency env Hc proxies []).
    simpl. unfold ProxyChecker.call_fire, ProxyChecker.pool_fire. simpl.
    replace (concurrency <? 1)%Z with false by (symmetry; apply Z.ltb_ge; lia).
    simpl.
    rewrite <- (length_map (fun pq => ProxyChecker.check_proxy self
                                        (ProxyChecker.answering env
                                           (ProxyChecker.request_of self (fst pq) (snd pq)))
                                        (fst pq) (snd pq)) proxies) at 1.
    apply (@yield_backwards self concurrency Hc).
  - reflexivity.
  - simpl. rewrite map_rev, map_map. f_equal.
    induction proxies as [|[p q] ps IH]; simpl; [reflexivity|].
    now rewrite gui_probe_key, IH.
Qed.

Lemma pool_results_can_come_reversed_witness :
  exists (es : list ProxyChecker.pool_event) (b : ProxyChecker.call),
    ProxyChecker.check_proxies_batch gui_checker 1 three_proxies es = Some b /\
    ProxyChecker.returned b = true /\
    map key (ProxyChecker.self_results b) = rev three_proxies.
Proof.
  apply (@pool_results_can_come_reversed gui_checker 1 three_proxies
           (response_env 200)).
  lia.
Defined.

(* ================================================================== *)
(** * Further properties of [parse_proxies] *)

(** What one line can give: nothing, or one pair of one of two shapes. *)
Lemma parse_line_pair (raw : pystr) :
  Forall (fun c => cls_any c = true) (strip raw) ->
  parse_line [] raw = [] \/
  (exists P rest, In P schemes /\ rest <> [] /\
                  strip raw = P ++ u "://" ++ rest /\
                  parse_line [] raw = [(rest, P)]) \/
  (strip raw <> [] /\ parse_line [] raw = [(strip raw, u "http")]).
Proof.
  intros Hany. pose proof (re_scheme_spec Hany) as Hs. unfold parse_line.
  destruct (str_eqb (strip raw) []) eqn:He; [now left|].
  assert (Hne : strip raw <> []).
  { intros H0. rewrite H0 in He. discriminate. }
  simpl. destruct (startswith (strip raw) (u "#")); [now left|].
  destruct (re_match re_scheme (strip raw)) as [m|].
  - destruct Hs as [P [rest [HP [Hr [Hl [H1 H3]]]]]].
    right; left. exists P, rest. repeat split; auto.
    cbv zeta. simpl app. f_equal. f_equal; [exact H3 | exact H1].
  - destruct (is_some (re_match re_auth (strip raw))); [right; right; auto|].
    destruct (is_some (re_match re_bare (strip raw))); [right; right; auto|].
    now left.
Qed.

Lemma in_parse_proxies (text : pystr) (pair : pystr * pystr) :
  In pair (parse_proxies text) ->
  exists raw, In raw (split NL (strip text)) /\ parse_line [] raw = [pair].
Proof.
  rewrite parse_proxies_lines, in_flat_map. intros [raw [Hraw Hin]].
  exists raw. split; [exact Hraw|].
  destruct (@parse_line_pair raw (@line_no_newline _ raw Hraw))
    as [H|[[P [rest [_ [_ [_ H]]]]]|[_ H]]]; rewrite H in Hin |- *;
    simpl in Hin; [contradiction| |]; destruct Hin as [<-|Hin];
    (reflexivity || contradiction).
Qed.

(** X7. Every pair [parse_proxies] gives names one of the three protocols
    and has an endpoint that is not empty and holds no newline; a line gives
    at most one pair, so there are never more pairs than lines. *)
Theorem parsed_pairs_wellformed :
  forall text : pystr,
    (List.length (parse_proxies text)
     <= List.length (split NL (strip text)))%nat /\
    forall proxy protocol : pystr,
      In (proxy, protocol) (parse_proxies text) ->
      In protocol schemes /\ proxy <> [] /\
      Forall (fun c => c <> NL) proxy.
Proof.
  intros text. split.
  - rewrite parse_proxies_lines.
    assert (H : forall ls : list pystr,
               Forall (fun raw => Forall (fun c => cls_any c = true) (strip raw)) ls ->
               (List.length (flat_map (parse_line []) ls) <= List.length ls)%nat).
    { induction 1 as [|raw ls Hraw _ IH]; simpl; [lia|].
      rewrite length_app.
      destruct (@parse_line_pair raw Hraw) as [H|[[P [rest [_ [_ [_ H]]]]]|[_ H]]];
        rewrite H; simpl; lia. }
    apply H. apply Forall_forall. intros raw Hraw.
    eapply line_no_newline; eauto.
  - intros proxy protocol Hin.
    destruct (@in_parse_proxies text _ Hin) as [raw [Hraw Hline]].
    pose proof (@line_no_newline _ raw Hraw) as Hany.
    assert (Hnl : forall s, Forall (fun c => cls_any c = true) s ->
                            Forall (fun c => c <> NL) s).
    { intros s Hs. eapply Forall_impl; [|exact Hs].
      intros c Hc ->. discriminate Hc. }
    destruct (@parse_line_pair raw Hany) as [H|[[P [rest [HP [Hr [Hl H]]]]]|[Hne H]]];
      rewrite H in Hline; try discriminate; injection Hline as <- <-.
    + repeat split; auto. apply Hnl. rewrite Hl in Hany.
      apply Forall_app in Hany as [_ Hany]. now apply Forall_app in Hany as [_ Hany].
    + repeat split; auto. left; reflexivity.
Qed.

(** X8. The proxy URL a probe builds from a parsed pair, [protocol://proxy],
    is the line the pair came from, stripped, when that line names a
    protocol, and [http://] followed by the stripped line when it does not.
    Both checkers. *)
Theorem parsed_pair_probe_url :
  forall (text proxy protocol : pystr),
    In (proxy, protocol) (parse_proxies text) ->
    exists raw : pystr,
      In raw (split NL (strip text)) /\
      forall (gui : ProxyChecker.t) (lower : pystr -> pystr) (cli : ProxyCheckerCLI.t),
        req_proxy_url (ProxyChecker.request_of gui proxy protocol)
        = req_proxy_url (ProxyCheckerCLI.request_of lower cli proxy protocol) /\
        ((exists P, In P schemes /\ startswith (strip raw) (P ++ u "://") = true) ->
         req_proxy_url (ProxyChecker.request_of gui proxy protocol) = strip raw) /\
        ((forall P, In P schemes -> startswith (strip raw) (P ++ u "://") = false) ->
         req_proxy_url (ProxyChecker.request_of gui proxy protocol)
         = u "http://" ++ strip raw).
Proof.
  intros text proxy protocol Hin.
  destruct (@in_parse_proxies text _ Hin) as [raw [Hraw Hline]].
  exists raw. split; [exact Hraw|]. intros gui lower cli.
  pose proof (@line_no_newline _ raw Hraw) as Hany.
  split; [reflexivity|].
  unfold ProxyChecker.request_of. cbn [req_proxy_url]. split.
  - intros [P [HP Hst]]. apply startswith_app in Hst as [t Ht].
    rewrite <- app_assoc in Ht. destruct t as [|c t].
    + exfalso. rewrite app_nil_r in Ht. unfold parse_line in Hline.
      rewrite Ht in Hline.
      destruct HP as [<-|[<-|[<-|[]]]]; vm_compute in Hline; discriminate.
    + destruct (@parse_line_cases raw Hany) as [_ [Hsch _]].
      rewrite (Hsch P (c :: t) HP ltac:(discriminate) Ht) in Hline.
      injection Hline as <- <-. now rewrite Ht.
  - intros Hno.
    destruct (@parse_line_pair raw Hany) as [H|[[P [rest [HP [Hr [Hl H]]]]]|[Hne H]]];
      rewrite H in Hline; try discriminate; injection Hline as <- <-.
    + specialize (Hno P HP). rewrite Hl in Hno.
      rewrite app_assoc, startswith_prefix in Hno. discriminate.
    + reflexivity.
Qed.

Lemma parsed_pair_probe_url_witness :
  exists raw : pystr,
    In raw (split NL (strip (u "  socks5://user:pw@10.0.0.1:1080  "))) /\
    req_proxy_url (ProxyChecker.request_of gui_checker
                     (u "user:pw@10.0.0.1:1080") (u "socks5"))
    = strip raw.
Proof.
  destruct (@parsed_pair_probe_url (u "  socks5://user:pw@10.0.0.1:1080  ")
              (u "user:pw@10.0.0.1:1080") (u "socks5") (or_introl eq_refl))
    as [raw [Hraw H]].
  exists raw. split; [exact Hraw|].
  destruct Hraw as [<-|[]].
  apply (proj1 (proj2 (H gui_checker identity_lower cli_checker))).
  exists (u "socks5"). split; [right; right; left; reflexivity | reflexivity].
Defined.

Lemma parsed_pairs_wellformed_witness :
  In (u "socks5") schemes /\ u "user:pw@10.0.0.1:1080" <> [].
Proof.
  destruct (proj2 (parsed_pairs_wellformed (u "socks5://user:pw@10.0.0.1:1080"))
              (u "user:pw@10.0.0.1:1080") (u "socks5") (or_introl eq_refl))
    as [H1 [H2 _]].
  split; [exact H1 | exact H2].
Defined.

(* ------------------------------------------------------------------ *)
(** Lines and white space. *)

Lemma split_cons_other (sep c : N) (s : pystr) :
  (c =? sep)%N = false -> split sep (c :: s) = prepend_first [c] (split sep s).
Proof. intros H. simpl. rewrite H. now destruct (split sep s). Qed.

Lemma split_cons_sep (sep : N) (s : pystr) :
  split sep (sep :: s) = [] :: split sep s.
Proof. simpl. now rewrite N.eqb_refl. Qed.

Lemma split_not_nil (sep : N) (s : pystr) : split sep s <> [].
Proof.
  destruct s as [|c s]; simpl; [discriminate|].
  destruct (c =? sep)%N; [discriminate|]. destruct (split sep s); discriminate.
Qed.

Lemma split_app_any (sep : N) (a b : pystr) :
  split sep (a ++ sep :: b) = split sep a ++ split sep b.
Proof.
  induction a as [|c a IH].
  - simpl app. now rewrite split_cons_sep.
  - simpl app. destruct (c =? sep)%N eqn:Hc.
    + apply N.eqb_eq in Hc. subst c. now rewrite !split_cons_sep, IH.
    + rewrite !split_cons_other, IH by exact Hc.
      pose proof (split_not_nil sep a). now destruct (split sep a).
Qed.

Lemma prepend_prepend (a c : pystr) (l : list pystr) :
  l <> [] -> prepend_first a (prepend_first c l) = prepend_first (a ++ c) l.
Proof. destruct l; [congruence|]. intros _. simpl. now rewrite app_assoc. Qed.

Lemma lstrip_space (w s : pystr) :
  Forall (fun c => isspace c = true) w -> lstrip (w ++ s) = lstrip s.
Proof. induction 1 as [|c w Hc _ IH]; simpl; [reflexivity | now rewrite Hc]. Qed.

Lemma lstrip_split (s : pystr) :
  exists w, s = w ++ lstrip s /\ Forall (fun c => isspace c = true) w.
Proof.
  induction s as [|c s [w [Hs Hw]]]; simpl.
  - exists []. auto.
  - destruct (isspace c) eqn:Hc.
    + exists (c :: w). split; [simpl; congruence | now constructor].
    + exists []. auto.
Qed.

Lemma rstrip_space (s w : pystr) :
  Forall (fun c => isspace c = true) w -> rstrip (s ++ w) = rstrip s.
Proof.
  intros Hw. unfold rstrip. rewrite rev_app_distr, lstrip_space; [reflexivity|].
  now apply Forall_rev.
Qed.

Lemma rstrip_split (s : pystr) :
  exists w, s = rstrip s ++ w /\ Forall (fun c => isspace c = true) w.
Proof.
  destruct (lstrip_split (rev s)) as [w [Hs Hw]].
  exists (rev w). split; [|now apply Forall_rev].
  unfold rstrip. rewrite <- rev_app_distr, <- Hs. now rewrite rev_involutive.
Qed.

Lemma strip_space_cons (c : N) (s : pystr) :
  isspace c = true -> strip (c :: s) = strip s.
Proof. intros H. unfold strip. simpl. now rewrite H. Qed.

Lemma strip_space_after (s w : pystr) :
  Forall (fun c => isspace c = true) w -> strip (s ++ w) = strip s.
Proof.
  intros Hw. induction s as [|c s IH].
  - unfold strip. simpl app. rewrite <- (app_nil_r w), lstrip_space by exact Hw.
    reflexivity.
  - destruct (isspace c) eqn:Hc.
    + simpl app. now rewrite !strip_space_cons.
    + unfold strip. simpl. rewrite Hc.
      change (c :: s ++ w) with ((c :: s) ++ w). now apply rstrip_space.
Qed.

Lemma parse_line_strip (raw raw' : pystr) :
  strip raw = strip raw' -> parse_line [] raw = parse_line [] raw'.
Proof. intros H. unfold parse_line. now rewrite H. Qed.

Lemma isspace_not_newline (c : N) : (c =? NL)%N = false \/ c = NL.
Proof. destruct (c =? NL)%N eqn:H; [right; now apply N.eqb_eq | now left]. Qed.

(** Nothing comes from what stands after the last piece when that is white
    space, whatever stands in front of the first piece. *)
Lemma parse_space_after (w : pystr) :
  Forall (fun c => isspace c = true) w ->
  forall acc : pystr,
    flat_map (parse_line []) (prepend_first acc (split NL w)) = parse_line [] acc.
Proof.
  induction 1 as [|c w Hc Hw IH]; intros acc.
  - simpl. now rewrite !app_nil_r.
  - destruct (isspace_not_newline c) as [Hn| ->].
    + rewrite split_cons_other, prepend_prepend by (auto; apply split_not_nil).
      rewrite IH. apply parse_line_strip. apply strip_space_after.
      now repeat constructor.
    + rewrite split_cons_sep.
      assert (Hz : flat_map (parse_line []) (split NL w) = []).
      { specialize (IH []). pose proof (split_not_nil NL w) as Hnn.
        destruct (split NL w) as [|p0 rest]; [congruence | exact IH]. }
      change (prepend_first acc ([] :: split NL w)) with ((acc ++ []) :: split NL w).
      cbn [flat_map]. now rewrite Hz, !app_nil_r.
Qed.

Lemma parse_trailing_space (t w : pystr) :
  Forall (fun c => isspace c = true) w ->
  forall acc : pystr,
    flat_map (parse_line []) (prepend_first acc (split NL (t ++ w)))
    = flat_map (parse_line []) (prepend_first acc (split NL t)).
Proof.
  intros Hw. induction t as [|c t IH]; intros acc.
  - simpl app. rewrite parse_space_after by exact Hw. simpl.
    now rewrite !app_nil_r.
  - simpl app. destruct (isspace_not_newline c) as [Hn| ->].
    + rewrite !split_cons_other, !prepend_prepend
        by (auto; apply split_not_nil). apply IH.
    + rewrite !split_cons_sep. simpl. f_equal.
      specialize (IH []).
      pose proof (split_not_nil NL (t ++ w)) as H1.
      pose proof (split_not_nil NL t) as H2.
      destruct (split NL (t ++ w)), (split NL t); try congruence. exact IH.
Qed.

Lemma parse_leading_space (t : pystr) :
  flat_map (parse_line []) (split NL (lstrip t))
  = flat_map (parse_line []) (split NL t).
Proof.
  induction t as [|c t IH]; [reflexivity|]. simpl lstrip.
  destruct (isspace c) eqn:Hc; [|reflexivity]. rewrite IH.
  destruct (isspace_not_newline c) as [Hn| ->].
  - rewrite split_cons_other by exact Hn.
    pose proof (split_not_nil NL t) as Hnn.
    destruct (split NL t) as [|p0 rest]; [congruence|]. simpl. f_equal.
    apply parse_line_strip. symmetry. now apply strip_space_cons.
  - rewrite split_cons_sep. reflexivity.
Qed.

Lemma parse_all_lines (t : pystr) :
  parse_proxies t = flat_map (parse_line []) (split NL t).
Proof.
  rewrite parse_proxies_lines. unfold strip.
  rewrite <- (parse_leading_space t).
  remember (lstrip t) as s eqn:Es. clear Es.
  destruct (rstrip_split s) as [w [Hs Hw]].
  transitivity (flat_map (parse_line []) (split NL (rstrip s ++ w)));
    [|now rewrite <- Hs].
  pose proof (parse_trailing_space (rstrip s) Hw []) as H.
  pose proof (split_not_nil NL (rstrip s ++ w)) as H1.
  pose proof (split_not_nil NL (rstrip s)) as H2.
  destruct (split NL (rstrip s ++ w)), (split NL (rstrip s));
    try congruence. symmetry. exact H.
Qed.

(** X9. [parse_proxies] goes by lines alone: two texts joined by a newline
    give the pairs of the first followed by the pairs of the second, white
    space around the text makes no difference, and a text of white space
    gives no pair. *)
Theorem parse_proxies_by_lines :
  forall a b : pystr,
    parse_proxies (a ++ [NL] ++ b) = parse_proxies a ++ parse_proxies b /\
    parse_proxies (strip a) = parse_proxies a /\
    (Forall (fun c => isspace c = true) a -> parse_proxies a = []).
Proof.
  intros a b. split; [|split].
  - rewrite !parse_all_lines. simpl app. now rewrite split_app_any, flat_map_app.
  - rewrite (parse_proxies_lines a). apply parse_all_lines.
  - intros Ha. rewrite parse_all_lines.
    pose proof (parse_space_after Ha []) as H.
    pose proof (split_not_nil NL a) as Hn.
    destruct (split NL a); [congruence|]. exact H.
Qed.

(* ================================================================== *)
(** * The result table of the window *)

Lemma last_of_app {A : Type} (l : list A) (x : A) :
  ProxyCheckerTable.last_of (l ++ [x]) = Some x.
Proof.
  induction l as [|y l IH]; [reflexivity|].
  simpl app. destruct (l ++ [x]) eqn:E; [now destruct l|]. exact IH.
Qed.

Lemma last_of_in {A : Type} (l : list A) (x : A) :
  ProxyCheckerTable.last_of l = Some x -> In x l.
Proof.
  induction l as [|y l IH]; [discriminate|].
  destruct l as [|z l]; [intros H; injection H as ->; now left|].
  intros H. right. now apply IH.
Qed.

Lemma last_of_some {A : Type} (l : list A) :
  l <> [] -> exists x, ProxyCheckerTable.last_of l = Some x.
Proof.
  induction l as [|y l IH]; [congruence|]. intros _.
  destruct l as [|z l]; [now exists y|]. apply IH. discriminate.
Qed.

Lemma update_ok (w : ProxyCheckerTable.t) (cur tot : Z) (rest : list (Z * Z)) :
  tot <> 0%Z ->
  exists progress,
    ProxyCheckerTable.update w cur tot rest
    = Ok (ProxyCheckerTable.mk (ProxyCheckerTable.worker w)
            (ProxyCheckerTable.total w) rest progress
            (str_of_int cur ++ u "/" ++ str_of_int tot)
            (match ProxyCheckerTable.last_of (ProxyChecker.self_results (ProxyCheckerTable.worker w)) with
             | Some result =>
               ProxyCheckerTable.add_result_to_tree (ProxyCheckerTable.result_tree w) result
             | None => ProxyCheckerTable.result_tree w
             end)).
Proof.
  intros Htot. unfold ProxyCheckerTable.update, py_truediv, is_zero.
  apply Z.eqb_neq in Htot. rewrite Htot. simpl. eauto.
Qed.

Lemma table_fire_inv (checker : ProxyChecker.t) (concurrency : Z)
      (proxies : list (pystr * pystr)) (w : ProxyCheckerTable.t)
      (e : ProxyCheckerTable.table_event) (r : pyres ProxyCheckerTable.t) :
  table_inv proxies w ->
  ProxyCheckerTable.table_fire checker concurrency w e = Some r ->
  exists w', r = Ok w' /\ table_inv proxies w'.
Proof.
  intros [Hne [Htot [Hq [Hlen Hrows]]]]. destruct e as [e|]; simpl.
  - destruct (ProxyChecker.call_fire checker concurrency
                (ProxyCheckerTable.worker w) e) as [b|] eqn:Hf; [|discriminate].
    intros H; injection H as <-. eexists. split; [reflexivity|].
    destruct (call_fire_facts _ _ _ _ Hf) as (_ & _ & Hshape & _).
    unfold table_inv. simpl.
    split; [exact Hne|]. split; [exact Htot|].
    destruct (ProxyChecker.appends e).
    + destruct Hshape as [x Hx]. split; [|split].
      * apply Forall_app. split; [exact Hq | now repeat constructor].
      * rewrite Hx, !length_app. simpl. lia.
      * intros row Hrow. destruct (Hrows row Hrow) as [res [Hres ->]].
        exists res. split; [|reflexivity]. rewrite Hx. apply in_or_app. now left.
    + rewrite Hshape. auto.
  - destruct (ProxyCheckerTable.after_queue w) as [|[cur tot] rest] eqn:Hqueue;
      [discriminate|].
    intros H; injection H as <-.
    inversion Hq as [|? ? Hhead Hrest]; subst. simpl in Hhead.
    assert (Hnz : tot <> 0%Z).
    { rewrite Hhead, Htot. destruct proxies; [congruence | simpl; lia]. }
    destruct (update_ok w cur rest Hnz) as [progress ->].
    eexists. split; [reflexivity|]. unfold table_inv. simpl in *.
    assert (Hres : ProxyChecker.self_results (ProxyCheckerTable.worker w) <> []).
    { intros H0. rewrite H0 in Hlen. simpl in Hlen. lia. }
    destruct (last_of_some Hres) as [x Hx]. rewrite Hx.
    unfold ProxyCheckerTable.add_result_to_tree.
    repeat split; auto.
    + rewrite length_app. simpl. lia.
    + intros row Hrow. apply in_app_or in Hrow as [Hrow|[<-|[]]].
      * now apply Hrows.
      * exists x. split; [now apply last_of_in | reflexivity].
Qed.

Lemma table_run_inv (checker : ProxyChecker.t) (concurrency : Z)
      (proxies : list (pystr * pystr)) (es : list ProxyCheckerTable.table_event) :
  forall (w : ProxyCheckerTable.t) (r : pyres ProxyCheckerTable.t),
    table_inv proxies w ->
    ProxyCheckerTable.table_run checker concurrency w es = Some r ->
    exists w', r = Ok w' /\ table_inv proxies w'.
Proof.
  induction es as [|e es IH]; intros w r Hinv; simpl.
  - intros H; injection H as <-. eauto.
  - destruct (ProxyCheckerTable.table_fire checker concurrency w e) as [r1|] eqn:Hf;
      [|discriminate].
    destruct (@table_fire_inv checker concurrency proxies w e r1 Hinv Hf)
      as [w1 [-> Hinv1]].
    now apply IH.
Qed.

Lemma start_check_inv (proxies : list (pystr * pystr)) (w : ProxyCheckerTable.t) :
  ProxyCheckerTable.start_check proxies = Some w -> table_inv proxies w.
Proof.
  destruct proxies as [|p ps]; [discriminate|]. intros H; injection H as <-.
  unfold table_inv. simpl. repeat split; auto; try discriminate.
  intros row [].
Qed.



Lemma table_run_app (checker : ProxyChecker.t) (concurrency : Z)
      (es1 es2 : list ProxyCheckerTable.table_event) :
  forall w : ProxyCheckerTable.t,
    ProxyCheckerTable.table_run checker concurrency w (es1 ++ es2)
    = match ProxyCheckerTable.table_run checker concurrency w es1 with
      | Some (Ok w1) => ProxyCheckerTable.table_run checker concurrency w1 es2
      | other => other
      end.
Proof.
  induction es1 as [|e es1 IH]; intros w; simpl; [reflexivity|].
  destruct (ProxyCheckerTable.table_fire checker concurrency w e) as [[w1|]|];
    [apply IH | reflexivity | reflexivity].
Qed.

Lemma in_step_run (checker : ProxyChecker.t) (concurrency : Z)
      (es : list ProxyChecker.pool_event) :
  forall (w : ProxyCheckerTable.t) (b : ProxyChecker.call),
    ProxyCheckerTable.total w <> 0%Z ->
    ProxyCheckerTable.after_queue w = [] ->
    ProxyCheckerTable.result_tree w
    = map ProxyCheckerTable.row_of (ProxyChecker.self_results (ProxyCheckerTable.worker w)) ->
    ProxyChecker.call_run checker concurrency (ProxyCheckerTable.worker w) es
    = Some b ->
    exists w' : ProxyCheckerTable.t,
      ProxyCheckerTable.table_run checker concurrency w (ProxyCheckerTable.in_step es)
      = Some (Ok w') /\
      ProxyCheckerTable.worker w' = b /\
      ProxyCheckerTable.after_queue w' = [] /\
      ProxyCheckerTable.result_tree w' = map ProxyCheckerTable.row_of (ProxyChecker.self_results b).
Proof.
  induction es as [|e es IH]; intros w b Htot Hq Htree; simpl.
  - intros H; injection H as <-. exists w. auto.
  - destruct (ProxyChecker.call_fire checker concurrency
                (ProxyCheckerTable.worker w) e) as [b1|] eqn:Hf; [|discriminate].
    intros Hrun. destruct (call_fire_facts _ _ _ _ Hf) as (_ & _ & Hshape & _).
    destruct (ProxyChecker.appends e) eqn:Hs.
    + destruct Hshape as [x Hx]. simpl. rewrite Hf, Hs, Hq. simpl.
      match goal with |- context [ProxyCheckerTable.update ?w1 ?c ?t ?rest] =>
        destruct (@update_ok w1 c t rest Htot) as [progress ->] end.
      simpl. rewrite Hx, last_of_app.
      apply IH; simpl; auto.
      unfold ProxyCheckerTable.add_result_to_tree.
      now rewrite Hx, map_app, Htree.
    + simpl. rewrite Hf, Hs.
      apply IH; simpl; auto. now rewrite Hshape.
Qed.

(** X11. When the main loop runs each update before the next result is
    appended, the table ends up with one row per result, in the order of the
    list. *)
Theorem table_in_step_shows_each_result :
  forall (checker : ProxyChecker.t) (concurrency : Z)
         (proxies : list (pystr * pystr)) (w0 : ProxyCheckerTable.t)
         (es : list ProxyChecker.pool_event) (b : ProxyChecker.call),
    ProxyCheckerTable.start_check proxies = Some w0 ->
    ProxyChecker.check_proxies_batch checker concurrency proxies es = Some b ->
    exists w : ProxyCheckerTable.t,
      ProxyCheckerTable.table_run checker concurrency w0 (ProxyCheckerTable.in_step es)
      = Some (Ok w) /\
      ProxyCheckerTable.worker w = b /\
      ProxyCheckerTable.after_queue w = [] /\
      ProxyCheckerTable.result_tree w = map ProxyCheckerTable.row_of (ProxyChecker.self_results b).
Proof.
  intros checker concurrency proxies w0 es b Hstart Hrun.
  destruct proxies as [|p ps]; [discriminate|]. injection Hstart as <-.
  apply in_step_run; simpl; auto. lia.
Qed.

Lemma table_in_step_shows_each_result_witness :
  ProxyCheckerTable.table_run gui_checker 2 table_start
    (ProxyCheckerTable.in_step out_of_order) = Some (Ok in_step_end) /\
  map ProxyCheckerTable.tags (ProxyCheckerTable.result_tree in_step_end)
  = [u "timeout"; u "success"; u "failed"].
Proof.
  split; [reflexivity|].
  destruct (@table_in_step_shows_each_result gui_checker 2 three_proxies table_start
              out_of_order out_of_order_end eq_refl eq_refl) as [w [Hw [_ [_ Ht]]]].
  assert (E : Some (Ok w) = Some (Ok in_step_end)) by (rewrite <- Hw; reflexivity).
  injection E as ->. rewrite Ht. reflexivity.
Defined.

Lemma threads_only_run (checker : ProxyChecker.t) (concurrency : Z)
      (es : list ProxyChecker.pool_event) :
  forall (w : ProxyCheckerTable.t) (b : ProxyChecker.call),
    ProxyChecker.call_run checker concurrency (ProxyCheckerTable.worker w) es
    = Some b ->
    exists w' : ProxyCheckerTable.t,
      ProxyCheckerTable.table_run checker concurrency w
        (map ProxyCheckerTable.Thread es) = Some (Ok w') /\
      ProxyCheckerTable.worker w' = b /\
      ProxyCheckerTable.result_tree w' = ProxyCheckerTable.result_tree w.
Proof.
  induction es as [|e es IH]; intros w b; simpl.
  - intros H; injection H as <-. exists w. auto.
  - destruct (ProxyChecker.call_fire checker concurrency
                (ProxyCheckerTable.worker w) e) as [b1|]; [|discriminate].
    intros Hrun.
    match goal with |- context [ProxyCheckerTable.table_run _ _ ?w1 _] =>
      destruct (IH w1 b Hrun) as [w' [H1 [H2 H3]]] end.
    exists w'. auto.
Qed.

Lemma updates_burst (checker : ProxyChecker.t) (concurrency : Z) (x : ProxyResult)
      (q : list (Z * Z)) :
  forall w : ProxyCheckerTable.t,
    ProxyCheckerTable.after_queue w = q ->
    Forall (fun ct => snd ct <> 0%Z) q ->
    ProxyCheckerTable.last_of (ProxyChecker.self_results (ProxyCheckerTable.worker w)) = Some x ->
    exists w' : ProxyCheckerTable.t,
      ProxyCheckerTable.table_run checker concurrency w
        (repeat ProxyCheckerTable.Update (List.length q)) = Some (Ok w') /\
      ProxyCheckerTable.worker w' = ProxyCheckerTable.worker w /\
      ProxyCheckerTable.after_queue w' = [] /\
      ProxyCheckerTable.result_tree w'
      = ProxyCheckerTable.result_tree w
          ++ repeat (ProxyCheckerTable.row_of x) (List.length q).
Proof.
  induction q as [|[cur tot] q IH]; intros w Hq Hnz Hlast; simpl.
  - exists w. rewrite app_nil_r. auto.
  - rewrite Hq. inversion Hnz as [|? ? Htot Hnz']; subst. simpl in Htot.
    destruct (@update_ok w cur tot q Htot) as [progress ->]. rewrite Hlast.
    match goal with |- context [ProxyCheckerTable.table_run _ _ ?w1 _] =>
      destruct (IH w1 eq_refl Hnz' Hlast) as [w' [H1 [H2 [H3 H4]]]] end.
    exists w'. repeat split; auto. rewrite H4. simpl.
    unfold ProxyCheckerTable.add_result_to_tree. now rewrite <- app_assoc.
Qed.

(** X12. When the main loop only gets to the updates once the batch has
    finished its events, every row it then adds shows the same result, the
    one that is last in the list: as many rows as results, all alike. *)
Theorem table_late_updates_repeat_last :
  forall (checker : ProxyChecker.t) (concurrency : Z)
         (proxies : list (pystr * pystr)) (w0 : ProxyCheckerTable.t)
         (es : list ProxyChecker.pool_event) (b : ProxyChecker.call),
    ProxyCheckerTable.start_check proxies = Some w0 ->
    ProxyChecker.check_proxies_batch checker concurrency proxies es = Some b ->
    exists w : ProxyCheckerTable.t,
      ProxyCheckerTable.table_run checker concurrency w0
        (map ProxyCheckerTable.Thread es
           ++ repeat ProxyCheckerTable.Update (List.length (ProxyChecker.self_results b)))
      = Some (Ok w) /\
      ProxyCheckerTable.worker w = b /\
      ProxyCheckerTable.after_queue w = [] /\
      List.length (ProxyCheckerTable.result_tree w) = List.length (ProxyChecker.self_results b) /\
      forall x, ProxyCheckerTable.last_of (ProxyChecker.self_results b) = Some x ->
        ProxyCheckerTable.result_tree w
        = repeat (ProxyCheckerTable.row_of x) (List.length (ProxyChecker.self_results b)).
Proof.
  intros checker concurrency proxies w0 es b Hstart Hrun.
  pose proof (start_check_inv _ Hstart) as Hinv0.
  assert (Hw0 : ProxyCheckerTable.worker w0 = ProxyChecker.call_init proxies
                /\ ProxyCheckerTable.result_tree w0 = []).
  { destruct proxies; [discriminate|]. injection Hstart as <-. auto. }
  destruct Hw0 as [Hworker Htree0].
  unfold ProxyChecker.check_proxies_batch in Hrun. rewrite <- Hworker in Hrun.
  destruct (threads_only_run _ _ _ _ Hrun) as [w1 [Hrun1 [Hb Htree1]]].
  destruct (@table_run_inv checker concurrency proxies _ w0 (Ok w1) Hinv0 Hrun1)
    as [w1' [Hw1 [Hne [Htot [Hq [Hlen _]]]]]].
  injection Hw1 as <-. rewrite Htree1, Htree0, Hb in Hlen. simpl in Hlen.
  rewrite table_run_app, Hrun1, <- Hlen.
  assert (Hnz : Forall (fun ct => snd ct <> 0%Z) (ProxyCheckerTable.after_queue w1)).
  { eapply Forall_impl; [|exact Hq]. intros ct ->. rewrite Htot.
    destruct proxies; [congruence | simpl; lia]. }
  destruct (ProxyChecker.self_results b) as [|r0 rs] eqn:Hres.
  - assert (Hq0 : ProxyCheckerTable.after_queue w1 = []).
    { destruct (ProxyCheckerTable.after_queue w1); [reflexivity | discriminate]. }
    rewrite Hq0. simpl. exists w1. repeat split; auto.
    + now rewrite Htree1, Htree0.
    + intros x Hx. discriminate.
  - destruct (@last_of_some _ (r0 :: rs) ltac:(discriminate)) as [x Hx].
    assert (Hx1 : ProxyCheckerTable.last_of (ProxyChecker.self_results (ProxyCheckerTable.worker w1))
                  = Some x) by now rewrite Hb, Hres.
    destruct (@updates_burst checker concurrency x _ w1 eq_refl Hnz Hx1)
      as [w [Hw [Hwb [Hwq Hwt]]]].
    exists w. rewrite Hw. repeat split; auto; try congruence.
    + rewrite Hwt, Htree1, Htree0. simpl. now rewrite repeat_length.
    + intros y Hy. rewrite Hx in Hy. injection Hy as <-.
      now rewrite Hwt, Htree1, Htree0.
Qed.

Lemma table_late_updates_repeat_last_witness :
  ProxyCheckerTable.table_run gui_checker 2 table_start late_updates
  = Some (Ok late_updates_end) /\
  map ProxyCheckerTable.tags (ProxyCheckerTable.result_tree late_updates_end)
  = [u "failed"; u "failed"; u "failed"].
Proof.
  split; [reflexivity|].
  destruct (@table_late_updates_repeat_last gui_checker 2 three_proxies table_start
              out_of_order out_of_order_end eq_refl eq_refl)
    as [w [Hw [_ [_ [_ Ht]]]]].
  assert (E : Some (Ok w) = Some (Ok late_updates_end)) by (rewrite <- Hw; reflexivity).
  injection E as ->. rewrite (Ht _ eq_refl). reflexivity.
Defined.

(* ================================================================== *)
(** * The text report *)

Lemma SFltb_asym (x y : spec_float) : SFltb x y = true -> SFltb y x = false.
Proof.
  unfold SFltb, SFcompare.
  destruct x as [sx|sx| |sx mx ex], y as [sy|sy| |sy my ey];
    try (destruct sx); try (destruct sy); try discriminate; try reflexivity.
  all: assert (Hm : Pos.compare_cont Eq my mx = CompOpp (Pos.compare_cont Eq mx my))
      by (symmetry; apply (Pos.compare_cont_antisym mx my Eq));
    rewrite (Z.compare_antisym ex ey), Hm;
    destruct (ex ?= ey)%Z; simpl; try discriminate; try reflexivity;
    destruct (Pos.compare_cont Eq mx my); simpl; try discriminate; reflexivity.
Qed.

Lemma SFltb_false_trans (x y z : spec_float) :
  SFeqb y y = true -> SFltb y x = false -> SFltb z y = false -> SFltb z x = false.
Proof.
  unfold SFltb, SFeqb, SFcompare.
  destruct x as [sx|sx| |sx mx ex], y as [sy|sy| |sy my ey], z as [sz|sz| |sz mz ez];
    try (destruct sx); try (destruct sy); try (destruct sz);
    try discriminate; try reflexivity; intros _.
  all: change (Pos.compare_cont Eq) with Pos.compare;
    destruct (Z.compare_spec ey ex), (Z.compare_spec ez ey), (Z.compare_spec ez ex);
    simpl; try discriminate; try reflexivity; try lia;
    destruct (Pos.compare_spec my mx), (Pos.compare_spec mz my), (Pos.compare_spec mz mx);
    simpl; try discriminate; try reflexivity; try lia.
Qed.

Lemma float_ltb_asym (x y : float) :
  (x <? y)%float = true -> (y <? x)%float = false.
Proof. rewrite !ltb_spec. apply SFltb_asym. Qed.

Lemma float_ltb_false_trans (x y z : float) :
  (y =? y)%float = true -> (y <? x)%float = false -> (z <? y)%float = false ->
  (z <? x)%float = false.
Proof. rewrite eqb_spec, !ltb_spec. apply SFltb_false_trans. Qed.

Lemma no_faster_after (a b : ProxyResult) :
  measured a = true -> measured b = true ->
  py_lt (latency a) (latency b) = true -> no_faster a b.
Proof.
  unfold measured, no_faster.
  destruct (latency a), (latency b); try discriminate.
  intros _ _. apply float_ltb_asym.
Qed.

Lemma no_faster_trans (a b c : ProxyResult) :
  measured a = true -> measured b = true -> measured c = true ->
  no_faster a b -> no_faster b c -> no_faster a c.
Proof.
  unfold measured, no_faster.
  destruct (latency a), (latency b), (latency c); try discriminate.
  intros _ Hb _ Hab Hbc. simpl in *.
  exact (@float_ltb_false_trans _ _ _ Hb Hab Hbc).
Qed.

Lemma insert_by_latency_perm (r : ProxyResult) (l : list ProxyResult) :
  Permutation (insert_by_latency r l) (r :: l).
Proof.
  induction l as [|y l IH]; simpl; [reflexivity|].
  destruct (py_lt (latency y) (latency r)); [|reflexivity].
  rewrite IH. apply perm_swap.
Qed.

Lemma sort_by_latency_perm (l : list ProxyResult) :
  Permutation (sort_by_latency l) l.
Proof.
  induction l as [|r l IH]; simpl; [reflexivity|].
  rewrite insert_by_latency_perm. now constructor.
Qed.

Lemma insert_by_latency_sorted (r : ProxyResult) (l : list ProxyResult) :
  measured r = true -> Forall (fun x => measured x = true) l ->
  StronglySorted no_faster l -> StronglySorted no_faster (insert_by_latency r l).
Proof.
  intros Hr Hl Hs. induction Hs as [|y l Hs IH Hy]; simpl.
  - constructor; constructor.
  - inversion Hl as [|? ? Hmy Hml]; subst.
    destruct (py_lt (latency y) (latency r)) eqn:E.
    + constructor; [now apply IH|].
      rewrite (insert_by_latency_perm r l). constructor; [|exact Hy].
      now apply no_faster_after.
    + constructor; [now constructor|].
      constructor; [exact E|].
      rewrite Forall_forall in Hy, Hml |- *. intros z Hz.
      apply (@no_faster_trans r y z); auto.
Qed.

Lemma sort_by_latency_sorted (l : list ProxyResult) :
  Forall (fun x => measured x = true) l ->
  StronglySorted no_faster (sort_by_latency l).
Proof.
  induction 1 as [|r l Hr Hl IH]; simpl; [constructor|].
  apply insert_by_latency_sorted; auto.
  now rewrite (sort_by_latency_perm l).
Qed.

Lemma fold_left_lines (line : ProxyResult -> pystr) (l : list ProxyResult)
      (f : pystr) :
  fold_left (fun f r => f ++ line r) l f = f ++ List.concat (map line l).
Proof.
  revert f. induction l as [|r l IH]; intros f; simpl.
  - now rewrite app_nil_r.
  - now rewrite IH, app_assoc.
Qed.

Lemma write_listing_text (results : list ProxyResult) (f : pystr) :
  write_listing results f
  = f ++ listing_text (sort_by_latency (filter is_success results))
                      (filter (fun r => negb (is_success r)) results).
Proof.
  unfold write_listing, listing_text. cbv zeta.
  rewrite !fold_left_lines. now rewrite <- !app_assoc.
Qed.

Lemma filter_both_perm {A : Type} (p : A -> bool) (l : list A) :
  Permutation (filter p l ++ filter (fun x => negb (p x)) l) l.
Proof.
  induction l as [|x l IH]; simpl; [reflexivity|].
  destruct (p x); simpl.
  - now constructor.
  - rewrite <- Permutation_middle. now constructor.
Qed.

Lemma measured_successes (results : list ProxyResult) :
  forallb (fun r => implb (is_success r) (measured r)) results = true ->
  Forall (fun x => measured x = true) (filter is_success results).
Proof.
  rewrite forallb_forall, Forall_forall. intros H r Hr.
  apply filter_In in Hr. destruct Hr as [Hin Hs].
  specialize (H r Hin). now rewrite Hs in H.
Qed.

Lemma stats_items (a b c d e g h : pynum) :
  let stats := [(u "total", a); (u "success", b); (u "failed", c);
                (u "success_rate", d); (u "avg_latency", e);
                (u "min_latency", g); (u "max_latency", h)] in
  forall body : pynum -> written,
    (item stats (u "total") body = body a /\
     item stats (u "success") body = body b /\
     item stats (u "failed") body = body c /\
     item stats (u "success_rate") body = body d) /\
    (item stats (u "avg_latency") body = body e /\
     item stats (u "min_latency") body = body g /\
     item stats (u "max_latency") body = body h).
Proof.
  intros stats body. unfold item.
  assert (H : dict_get stats (u "total") = Some a /\
              dict_get stats (u "success") = Some b /\
              dict_get stats (u "failed") = Some c /\
              dict_get stats (u "success_rate") = Some d /\
              dict_get stats (u "avg_latency") = Some e /\
              dict_get stats (u "min_latency") = Some g /\
              dict_get stats (u "max_latency") = Some h)
    by (vm_compute; repeat split).
  destruct H as (-> & -> & -> & -> & -> & -> & ->).
  repeat split.
Qed.

Lemma write_heading_app (now f : pystr) :
  write_heading now f = f ++ write_heading now [].
Proof. reflexivity. Qed.

Lemma report_shape (f heading block listing : pystr) :
  ((f ++ heading) ++ block) ++ listing = f ++ (heading ++ block) ++ listing.
Proof. now rewrite <- !app_assoc. Qed.

(** X13. The text report of both programs, over results whose successful
    probes carry a measured latency: writing it raises nothing (every key it
    reads is in the statistics), and it ends with the two lists, the working
    proxies, each of them once, from the fastest to the slowest, and after them
    all the other results in the order they came in. *)
Theorem text_report_lists_results (repr_float : float -> pystr)
        (results : list ProxyResult) (now f : pystr) :
  forallb (fun r => implb (is_success r) (measured r)) results = true ->
  exists cli_head gui_head working failing,
    cli_export_txt repr_float results now f
    = Written (f ++ cli_head ++ listing_text working failing) /\
    (results <> [] ->
     gui_export_results repr_float results true now
     = Some (Written (gui_head ++ listing_text working failing))) /\
    Permutation working (filter is_success results) /\
    StronglySorted no_faster working /\
    failing = filter (fun r => negb (is_success r)) results /\
    Permutation (working ++ failing) results.
Proof.
  intros Hm.
  assert (Hlist : Permutation (sort_by_latency (filter is_success results)
                               ++ filter (fun r => negb (is_success r)) results)
                              results).
  { rewrite sort_by_latency_perm. apply filter_both_perm. }
  pose proof (@sort_by_latency_sorted _ (@measured_successes results Hm)) as Hs.
  pose proof (sort_by_latency_perm (filter is_success results)) as Hp.
  assert (Hcli : exists cli_head,
             cli_export_txt repr_float results now f
             = Written (f ++ cli_head
                          ++ listing_text (sort_by_latency (filter is_success results))
                               (filter (fun r => negb (is_success r)) results))).
  { destruct results as [|r rs].
    - exists (write_heading now []).
      unfold cli_export_txt, ProxyCheckerCLI.get_statistics.
      rewrite write_listing_text, write_heading_app.
      now rewrite <- app_assoc.
    - destruct (get_statistics_nonempty r rs) as [_ Hc]. cbv zeta in Hc.
      unfold cli_export_txt. rewrite Hc. cbv zeta.
      rewrite (proj1 (proj1 (@stats_items _ _ _ _ _ _ _ _))).
      rewrite (proj1 (proj2 (proj1 (@stats_items _ _ _ _ _ _ _ _)))).
      rewrite (proj2 (proj2 (proj2 (proj1 (@stats_items _ _ _ _ _ _ _ _))))).
      rewrite (proj1 (proj2 (proj2 (proj1 (@stats_items _ _ _ _ _ _ _ _))))).
      rewrite (proj1 (proj2 (@stats_items _ _ _ _ _ _ _ _))).
      rewrite (proj1 (proj2 (proj2 (@stats_items _ _ _ _ _ _ _ _)))).
      rewrite (proj2 (proj2 (proj2 (@stats_items _ _ _ _ _ _ _ _)))).
      rewrite write_listing_text, write_heading_app.
      eexists. apply f_equal. apply report_shape. }
  assert (Hgui : results <> [] -> exists gui_head,
             gui_export_results repr_float results true now
             = Some (Written (gui_head
                          ++ listing_text (sort_by_latency (filter is_success results))
                               (filter (fun r => negb (is_success r)) results)))).
  { destruct results as [|r rs]; [intros H; now contradiction H|intros _].
    destruct (get_statistics_nonempty r rs) as [Hg _]. cbv zeta in Hg.
    unfold gui_export_results. rewrite Hg. cbv zeta. unfold negb.
    rewrite (proj1 (proj1 (@stats_items _ _ _ _ _ _ _ _))).
    rewrite (proj1 (proj2 (proj1 (@stats_items _ _ _ _ _ _ _ _)))).
    rewrite (proj1 (proj2 (proj2 (proj1 (@stats_items _ _ _ _ _ _ _ _))))).
    rewrite (proj2 (proj2 (proj2 (proj1 (@stats_items _ _ _ _ _ _ _ _))))).
    rewrite (proj1 (proj2 (@stats_items _ _ _ _ _ _ _ _))).
    rewrite (proj1 (proj2 (proj2 (@stats_items _ _ _ _ _ _ _ _)))).
    rewrite (proj2 (proj2 (proj2 (@stats_items _ _ _ _ _ _ _ _)))).
    rewrite write_listing_text.
    eexists. reflexivity. }
  destruct Hcli as [cli_head Hcli].
  destruct results as [|r rs].
  - exists cli_head, [], (sort_by_latency (filter is_success [])),
           (filter (fun r => negb (is_success r)) []).
    split; [exact Hcli|].
    split; [intros H; now contradiction H|].
    split; [exact Hp|]. split; [exact Hs|]. split; [reflexivity|exact Hlist].
  - destruct Hgui as [gui_head Hgui]; [discriminate|].
    exists cli_head, gui_head, (sort_by_latency (filter is_success (r :: rs))),
           (filter (fun r => negb (is_success r)) (r :: rs)).
    split; [exact Hcli|]. split; [intros _; exact Hgui|].
    split; [exact Hp|]. split; [exact Hs|]. split; [reflexivity|exact Hlist].
Qed.

Lemma text_report_lists_results_witness :
  exists cli_head gui_head working failing,
    cli_export_txt (fun _ => []) ten_results (u "2024-05-01 12:00:00") []
    = Written ([] ++ cli_head ++ listing_text working failing) /\
    (ten_results <> [] ->
     gui_export_results (fun _ => []) ten_results true (u "2024-05-01 12:00:00")
     = Some (Written (gui_head ++ listing_text working failing))) /\
    Permutation working (filter is_success ten_results) /\
    StronglySorted no_faster working /\
    failing = filter (fun r => negb (is_success r)) ten_results /\
    Permutation (working ++ failing) ten_results.
Proof.
  apply (@text_report_lists_results (fun _ => []) ten_results
           (u "2024-05-01 12:00:00") []).
  vm_compute. reflexivity.
Defined.

(* ================================================================== *)
(** * The closing list of [main] *)

Lemma strongly_sorted_app {A : Type} (R : A -> A -> Prop) (l1 l2 : list A) :
  StronglySorted R (l1 ++ l2) ->
  StronglySorted R l1 /\ StronglySorted R l2 /\
  Forall (fun x => Forall (R x) l2) l1.
Proof.
  induction l1 as [|x l1 IH]; simpl; intros H.
  - repeat split; [constructor|exact H|constructor].
  - inversion H as [|? ? Hs Hx]; subst.
    destruct (IH Hs) as (H1 & H2 & H3).
    apply Forall_app in Hx. destruct Hx as [Hx1 Hx2].
    repeat split; [now constructor|exact H2|now constructor].
Qed.

(** X14. The closing list of the command-line program, over results whose
    successful probes carry a measured latency: nothing is printed when no
    proxy works; else the heading, then at most ten working proxies from the
    fastest to the slowest, none of those left out being faster than any of
    those shown, and a last line counting the ones left out when there are
    any. *)
Theorem main_summary_shows_fastest (results : list ProxyResult) :
  forallb (fun r => implb (is_success r) (measured r)) results = true ->
  exists shown hidden,
    Permutation (shown ++ hidden) (filter is_success results) /\
    List.length shown = Nat.min 10 (List.length (filter is_success results)) /\
    StronglySorted no_faster shown /\
    Forall (fun s => Forall (no_faster s) hidden) shown /\
    main_summary results
    = match shown with
      | [] => []
      | _ :: _ =>
        ([NL] ++ u "可用代理列表:") :: map summary_line shown
          ++ match hidden with
             | [] => []
             | _ :: _ => [u "  ... 还有 "
                            ++ str_of_int (Z.of_nat (List.length hidden))
                            ++ u " 个可用代理"]
             end
      end.
Proof.
  intros Hm.
  pose proof (@sort_by_latency_sorted _ (@measured_successes results Hm)) as Hs.
  pose proof (sort_by_latency_perm (filter is_success results)) as Hp.
  unfold main_summary. cbv zeta.
  remember (filter is_success results) as successes eqn:E. clear E Hm.
  remember (sort_by_latency successes) as sorted eqn:Es. clear Es.
  assert (Hlen : List.length sorted = List.length successes)
    by (now apply Permutation_length).
  exists (firstn 10 sorted), (skipn 10 sorted).
  rewrite firstn_skipn.
  rewrite <- (firstn_skipn 10 sorted) in Hs.
  destruct (strongly_sorted_app _ _ Hs) as (H1 & _ & H3).
  split; [exact Hp|]. split; [rewrite length_firstn; lia|].
  split; [exact H1|]. split; [exact H3|].
  pose proof (length_skipn 10 sorted) as Hhid.
  destruct successes as [|s ss].
  - apply Permutation_sym, Permutation_nil in Hp. now rewrite Hp.
  - destruct sorted as [|x sorted']; [discriminate|].
    change (firstn 10 (x :: sorted')) with (x :: firstn 9 sorted').
    unfold app at 1 2. f_equal. f_equal.
    unfold py_gt, py_lt, len.
    destruct (skipn 10 (x :: sorted')) as [|h hs].
    + simpl List.length in Hhid.
      replace (10 <? Z.of_nat (List.length (x :: sorted')))%Z with false;
        [reflexivity|].
      symmetry. apply Z.ltb_ge. simpl List.length. lia.
    + simpl List.length in Hhid.
      replace (10 <? Z.of_nat (List.length (x :: sorted')))%Z with true
        by (symmetry; apply Z.ltb_lt; simpl List.length; lia).
      replace (Z.of_nat (List.length (x :: sorted')) - 10)%Z
        with (Z.of_nat (List.length (h :: hs))) by (simpl List.length; lia).
      reflexivity.
Qed.

Lemma main_summary_shows_fastest_witness :
  exists shown hidden,
    Permutation (shown ++ hidden) (filter is_success ten_results) /\
    List.length shown = Nat.min 10 (List.length (filter is_success ten_results)) /\
    StronglySorted no_faster shown /\
    Forall (fun s => Forall (no_faster s) hidden) shown /\
    main_summary ten_results
    = match shown with
      | [] => []
      | _ :: _ =>
        ([NL] ++ u "可用代理列表:") :: map summary_line shown
          ++ match hidden with
             | [] => []
             | _ :: _ => [u "  ... 还有 "
                            ++ str_of_int (Z.of_nat (List.length hidden))
                            ++ u " 个可用代理"]
             end
      end.
Proof.
  apply (@main_summary_shows_fastest ten_results).
  vm_compute. reflexivity.
Defined.

(* ================================================================== *)
(** * The bar and the label of the window *)






(* ================================================================== *)
(** * The bounds of the statistics *)

Lemma fold_min_bound (l : list ProxyResult) :
  forall first : ProxyResult,
    measured first = true -> Forall (fun x => measured x = true) l ->
    exists least : ProxyResult,
      fold_left (fun best y => if py_lt y best then y else best)
                (map latency l) (latency first) = latency least /\
      measured least = true /\
      no_faster least first /\ Forall (no_faster least) l.
Proof.
  induction l as [|y l IH]; intros first Hf Hl; simpl.
  - exists first. repeat split; auto.
    unfold no_faster, measured in *. destruct (latency first); [discriminate|].
    simpl. destruct (f <? f)%float eqn:E; [|reflexivity].
    now rewrite (@float_ltb_asym _ _ E) in E.
  - inversion Hl as [|? ? Hy Hl']; subst.
    destruct (py_lt (latency y) (latency first)) eqn:E.
    + destruct (IH y Hy Hl') as (least & Heq & Hm & Hly & Hll).
      exists least. split; [exact Heq|]. split; [exact Hm|].
      split; [|now constructor].
      apply (@no_faster_trans least y first); auto.
      now apply no_faster_after.
    + destruct (IH first Hf Hl') as (least & Heq & Hm & Hlf & Hll).
      exists least. split; [exact Heq|]. split; [exact Hm|].
      split; [exact Hlf|]. constructor; [|exact Hll].
      apply (@no_faster_trans least first y); auto.
Qed.

Lemma fold_max_bound (l : list ProxyResult) :
  forall first : ProxyResult,
    measured first = true -> Forall (fun x => measured x = true) l ->
    exists most : ProxyResult,
      fold_left (fun best y => if py_gt y best then y else best)
                (map latency l) (latency first) = latency most /\
      measured most = true /\
      no_faster first most /\ Forall (fun x => no_faster x most) l.
Proof.
  induction l as [|y l IH]; intros first Hf Hl; simpl.
  - exists first. repeat split; auto.
    unfold no_faster, measured in *. destruct (latency first); [discriminate|].
    simpl. destruct (f <? f)%float eqn:E; [|reflexivity].
    now rewrite (@float_ltb_asym _ _ E) in E.
  - inversion Hl as [|? ? Hy Hl']; subst.
    change (py_gt (latency y) (latency first))
      with (py_lt (latency first) (latency y)).
    destruct (py_lt (latency first) (latency y)) eqn:E.
    + destruct (IH y Hy Hl') as (most & Heq & Hm & Hly & Hll).
      exists most. split; [exact Heq|]. split; [exact Hm|].
      split; [|now constructor].
      apply (@no_faster_trans first y most); auto.
      now apply no_faster_after.
    + destruct (IH first Hf Hl') as (most & Heq & Hm & Hlf & Hll).
      exists most. split; [exact Heq|]. split; [exact Hm|].
      split; [exact Hlf|]. constructor; [|exact Hll].
      apply (@no_faster_trans y first most); auto.
Qed.

Lemma stats_min_max (a b c d e g h : pynum) :
  let stats := [(u "total", a); (u "success", b); (u "failed", c);
                (u "success_rate", d); (u "avg_latency", e);
                (u "min_latency", g); (u "max_latency", h)] in
  dict_get stats (u "min_latency") = Some g /\
  dict_get stats (u "max_latency") = Some h.
Proof. vm_compute. split; reflexivity. Qed.

(** X16. The fastest and the slowest latency of the statistics, over results
    that are not empty and whose successful probes carry a measured latency:
    both checkers give the same dict, no successful result is faster than its
    [min_latency] and none is slower than its [max_latency]. *)
Theorem statistics_min_max_bound (results : list ProxyResult) :
  results <> [] ->
  forallb (fun r => implb (is_success r) (measured r)) results = true ->
  exists (stats : pydict) (min_latency max_latency : pynum),
    ProxyChecker.get_statistics results = Ok stats /\
    ProxyCheckerCLI.get_statistics results = Ok (Some stats) /\
    dict_get stats (u "min_latency") = Some min_latency /\
    dict_get stats (u "max_latency") = Some max_latency /\
    forall r : ProxyResult,
      In r results -> is_success r = true ->
      py_lt (latency r) min_latency = false /\
      py_lt max_latency (latency r) = false.
Proof.
  intros Hne Hm.
  pose proof (@measured_successes results Hm) as Hs.
  destruct results as [|r0 rs]; [congruence|].
  destruct (get_statistics_nonempty r0 rs) as [Hg Hc]. cbv zeta in Hg, Hc.
  eexists. eexists. eexists.
  split; [exact Hg|]. split; [exact Hc|].
  split; [apply (proj1 (stats_min_max _ _ _ _ _ _ _))|].
  split; [apply (proj2 (stats_min_max _ _ _ _ _ _ _))|].
  intros r Hin Hr.
  assert (Hrs : In r (filter is_success (r0 :: rs))) by (apply filter_In; now split).
  destruct (filter is_success (r0 :: rs)) as [|s ss]; [contradiction|].
  inversion Hs as [|? ? Hms Hmss]; subst.
  destruct (@fold_min_bound ss s Hms Hmss) as (least & Hl1 & _ & Hl3 & Hl4).
  destruct (@fold_max_bound ss s Hms Hmss) as (most & Hx1 & _ & Hx3 & Hx4).
  unfold py_min, py_max. simpl map. cbv beta iota. rewrite Hl1, Hx1.
  rewrite Forall_forall in Hl4, Hx4.
  destruct Hrs as [<-|Hrs]; split; auto.
  - now apply Hl4.
  - now apply Hx4.
Qed.

Lemma statistics_min_max_bound_witness :
  exists (stats : pydict) (min_latency max_latency : pynum),
    ProxyChecker.get_statistics ten_results = Ok stats /\
    ProxyCheckerCLI.get_statistics ten_results = Ok (Some stats) /\
    dict_get stats (u "min_latency") = Some min_latency /\
    dict_get stats (u "max_latency") = Some max_latency /\
    forall r : ProxyResult,
      In r ten_results -> is_success r = true ->
      py_lt (latency r) min_latency = false /\
      py_lt max_latency (latency r) = false.
Proof.
  apply (@statistics_min_max_bound ten_results); [discriminate|].
  vm_compute. reflexivity.
Defined.
